(** * timestamps.py: yearly timestamps of four seed dates

    A shallow embedding of [src/timestamps.py] together with the part of
    Python's [datetime] module the script calls: the calendar helpers, the
    field check of the [datetime] constructor (used by [replace]) and the
    local-time conversion behind [timestamp()]. *)

From Stdlib Require Import ZArith List Lia Bool Arith.
Import ListNotations.

(** ** Exceptions and the error monad *)

(** The three [ValueError]s of [_check_date_fields]. *)
Inductive exn : Type :=
| ValueError_year (y : Z)
| ValueError_month (m : Z)
| ValueError_day (d : Z).

Inductive result (A : Type) : Type :=
| Ok (a : A)
| Raise (e : exn).

Arguments Ok {A} a.
Arguments Raise {A} e.

Definition bind {A B : Type} (r : result A) (k : A -> result B) : result B :=
  match r with
  | Ok a => k a
  | Raise e => Raise e
  end.

Notation "x <- e ;; k" := (bind e (fun x => k))
  (at level 61, e at next level, right associativity).

(** A list comprehension whose element expression may raise: elements are
    evaluated left to right and the first exception leaves the comprehension. *)
Fixpoint mapM {A B : Type} (f : A -> result B) (l : list A) : result (list B) :=
  match l with
  | [] => Ok []
  | a :: l' => b <- f a ;; bs <- mapM f l' ;; Ok (b :: bs)
  end.

(** [n]-fold Kleisli iteration. *)
Fixpoint iterM {A : Type} (f : A -> result A) (n : nat) (a : A) : result A :=
  match n with
  | O => Ok a
  | S n' => a' <- f a ;; iterM f n' a'
  end.

(** ** The calendar of Python's datetime module *)

Module Calendar.
Local Open Scope Z_scope.

Definition MINYEAR : Z := 1.
Definition MAXYEAR : Z := 9999.

(** Index 0 is the placeholder -1 of the Python table. *)
Definition _DAYS_IN_MONTH : list Z :=
  [-1; 31; 28; 31; 30; 31; 30; 31; 31; 30; 31; 30; 31].

(** The running sums built by the module's initialisation loop. *)
Definition _DAYS_BEFORE_MONTH : list Z :=
  [-1; 0; 31; 59; 90; 120; 151; 181; 212; 243; 273; 304; 334].

Definition _is_leap (year : Z) : bool :=
  (year mod 4 =? 0) && (negb (year mod 100 =? 0) || (year mod 400 =? 0)).

Definition _days_before_year (year : Z) : Z :=
  let y := year - 1 in
  y * 365 + y / 4 - y / 100 + y / 400.

(** Python asserts [1 <= month <= 12] here and in the next two functions; the
    callers below check the month first. *)
Definition _days_in_month (year month : Z) : Z :=
  if (month =? 2) && _is_leap year then 29
  else nth (Z.to_nat month) _DAYS_IN_MONTH 0.

Definition _days_before_month (year month : Z) : Z :=
  nth (Z.to_nat month) _DAYS_BEFORE_MONTH 0
  + (if (2 <? month) && _is_leap year then 1 else 0).

Definition _ymd2ord (year month day : Z) : Z :=
  _days_before_year year + _days_before_month year month + day.

End Calendar.
Import Calendar.

(** ** datetime objects *)

(** The script only builds [datetime(y, m, d)]: the time of day is midnight,
    [tzinfo] is [None] and [fold] is 0, and [replace(year=...)] keeps them, so
    a value is determined by its calendar fields. *)
Record datetime : Type := mk_datetime { year : Z; month : Z; day : Z }.

Local Open Scope Z_scope.

(** [_check_date_fields], in the order of its three tests. *)
Definition _check_date_fields (y m d : Z) : result (Z * Z * Z) :=
  if negb ((MINYEAR <=? y) && (y <=? MAXYEAR)) then Raise (ValueError_year y)
  else if negb ((1 <=? m) && (m <=? 12)) then Raise (ValueError_month m)
  else
    let dim := _days_in_month y m in
    if negb ((1 <=? d) && (d <=? dim)) then Raise (ValueError_day d)
    else Ok (y, m, d).

(** The constructor call [datetime(y, m, d)]. *)
Definition new_datetime (y m d : Z) : result datetime :=
  fields <- _check_date_fields y m d ;;
  let '(y', m', d') := fields in Ok (mk_datetime y' m' d').

(** [d.replace(year=y)]: a new object built through the constructor from the
    given year and the other fields of [d]. *)
Definition replace (d : datetime) (y : Z) : result datetime :=
  new_datetime y (month d) (day d).

(** The objects the constructor can return. *)
Definition valid (d : datetime) : bool :=
  (MINYEAR <=? year d) && (year d <=? MAXYEAR)
  && (1 <=? month d) && (month d <=? 12)
  && (1 <=? day d) && (day d <=? _days_in_month (year d) (month d)).

(** Comparison of datetime objects: lexicographic on the fields. *)
Definition dt_ltb (a b : datetime) : bool :=
  (year a <? year b)
  || ((year a =? year b)
      && ((month a <? month b) || ((month a =? month b) && (day a <? day b)))).

Definition dt_lt (a b : datetime) : Prop := dt_ltb a b = true.

(** ** Local time: [_mktime] and [timestamp] *)

Module LocalTime.

Definition max_fold_seconds : Z := 24 * 3600.

(** [(self - epoch) // timedelta(0, 1)] for a midnight datetime, with
    [epoch = datetime(1970, 1, 1)]. *)
Definition seconds_since_epoch (d : datetime) : Z :=
  (_ymd2ord (year d) (month d) (day d) - _ymd2ord 1970 1 1) * 86400.

Section Zone.
(** The local time zone of the machine: the UTC offset, in seconds, that
    [time.localtime] applies at the instant [u]. *)
Variable utcoffset : Z -> Z.

(** The inner function [local] of [_mktime]: the wall-clock reading of the
    instant [u], as seconds since the epoch. *)
Definition local (u : Z) : Z := u + utcoffset u.

(** [datetime._mktime], for [fold = 0]. *)
Definition _mktime (d : datetime) : Z :=
  let t := seconds_since_epoch d in
  let a := local t - t in
  let u1 := t - a in
  let t1 := local u1 in
  let b :=
    if t1 =? t
    then local (u1 - max_fold_seconds) - (u1 - max_fold_seconds)
    else t1 - u1 in
  if (t1 =? t) && (a =? b) then u1
  else
    let u2 := t - b in
    let t2 := local u2 in
    if t2 =? t then u2
    else if t1 =? t then u1
    else Z.max u1 u2.

(** [datetime.timestamp] of a naive datetime with [microsecond = 0]: the
    whole number of seconds computed by [_mktime], which Python returns as
    the float of the same value. *)
Definition timestamp (d : datetime) : Z := _mktime d.
End Zone.

(** A zone without transitions: the same offset at every instant. *)
Definition fixed_offset (off : Z) : Z -> Z := fun _ => off.

End LocalTime.

(** ** The script *)

(** The four constructor calls of the initial [dates] list. *)
Definition seed_fields : list (Z * Z * Z) :=
  [(2023, 11, 25); (2024, 2, 25); (2024, 5, 24); (2024, 8, 29)].

(** The objects those calls return (see [seed_dates_constructed]). *)
Definition seed_dates : list datetime :=
  [mk_datetime 2023 11 25; mk_datetime 2024 2 25;
   mk_datetime 2024 5 24; mk_datetime 2024 8 29].

(** The comprehension [[d.replace(year=d.year+1) for d in dates]]. *)
Definition advance (ds : list datetime) : result (list datetime) :=
  mapM (fun d => replace d (year d + 1)) ds.

(** The dates handed to [timestamp()] during [n] iterations that start from
    the working set [ds], in the order of the calls. *)
Fixpoint converted (n : nat) (ds : list datetime) : result (list datetime) :=
  match n with
  | O => Ok []
  | S n' =>
      ds' <- advance ds ;;
      rest <- converted n' ds' ;;
      Ok (ds' ++ rest)
  end.

(** The date [d] with [k] added to its year, unchecked. *)
Definition add_years (k : Z) (d : datetime) : datetime :=
  mk_datetime (year d + k) (month d) (day d).

Section Script.
(** The numeric type of timestamps and the conversion [d.timestamp()] of the
    machine the script runs on. *)
Variable T : Type.
Variable timestamp : datetime -> T.

(** The two module-level variables. *)
Record state : Type := mk_state { dates : list datetime; timestamps : list T }.

(** [len(timestamps) < 80] *)
Definition guard (s : state) : bool := (length (timestamps s) <? 80)%nat.

(** One execution of the loop body. *)
Definition body (s : state) : result state :=
  ds <- advance (dates s) ;;
  Ok {| dates := ds; timestamps := timestamps s ++ map timestamp ds |}.

(** What a run of the loop reports: the number of iterations it completed
    (a ghost count) and either the state at loop exit or the exception that
    left the loop. *)
Record run : Type := mk_run { iterations : nat; outcome : result state }.

Definition tick (r : run) : run :=
  {| iterations := S (iterations r); outcome := outcome r |}.

(** The [while] loop; [fuel] bounds the number of body executions and [None]
    means the bound was reached with the guard still true. *)
Fixpoint while_loop (fuel : nat) (s : state) : option run :=
  if guard s then
    match fuel with
    | O => None
    | S fuel' =>
        match body s with
        | Raise e => Some {| iterations := 0; outcome := Raise e |}
        | Ok s' => option_map tick (while_loop fuel' s')
        end
    end
  else Some {| iterations := 0; outcome := Ok s |}.

(** What the process leaves behind: the list written by [print] on normal
    exit, or an uncaught exception and nothing on standard output. *)
Inductive process : Type :=
| Printed (out : list T)
| Traceback (e : exn).

Definition finish (r : run) : process :=
  match outcome r with
  | Ok s => Printed (timestamps s)
  | Raise e => Traceback e
  end.

(** The script, started from the working set [seeds]. *)
Definition script (seeds : list datetime) (fuel : nat) : option process :=
  option_map finish (while_loop fuel {| dates := seeds; timestamps := [] |}).

(** The script as written. *)
Definition main (fuel : nat) : option process := script seed_dates fuel.

(** The state after [n] completed iterations. *)
Definition after (n : nat) (s : state) : result state := iterM body n s.
End Script.

Arguments Printed {T} out.
Arguments Traceback {T} e.
Arguments mk_run {T} iterations outcome.
Arguments mk_state {T} dates timestamps.
Arguments dates {T} s.
Arguments timestamps {T} s.
Arguments iterations {T} r.
Arguments outcome {T} r.
Arguments guard {T} s.
Arguments body {T} timestamp s.
Arguments tick {T} r.
Arguments while_loop {T} timestamp fuel s.
Arguments finish {T} r.
Arguments script {T} timestamp seeds fuel.
Arguments main {T} timestamp fuel.
Arguments after {T} timestamp n s.

(** ** Notions used in the statements *)

(** February 29, the one month and day that not every year has. *)
Definition leap_day (d : datetime) : bool := (month d =? 2) && (day d =? 29).

(** What a working set needs for [k] more year increments to succeed. *)
Definition advances (k : Z) (d : datetime) : Prop :=
  valid d = true /\ leap_day d = false /\ year d + k <= MAXYEAR.

(** The working set after [k] iterations. *)
Definition working_set (k : nat) : list datetime :=
  map (add_years (Z.of_nat k)) seed_dates.

(** The dates converted by the first [n] iterations, block by block. *)
Definition schedule (n : nat) : list datetime :=
  flat_map working_set (seq 1 n).

(** The state in which the loop is entered. *)
Definition initial (T : Type) : state T :=
  {| dates := seed_dates; timestamps := [] |}.

(** Decidable equality of datetime objects. *)
Definition datetime_eqb (a b : datetime) : bool :=
  (year a =? year b) && (month a =? month b) && (day a =? day b).

(** A conversion under which a later calendar date has a strictly larger
    timestamp, for the order [lt] of the timestamps. *)
Definition strictly_monotone {T : Type} (lt : T -> T -> Prop)
    (timestamp : datetime -> T) : Prop :=
  forall a b, valid a = true -> valid b = true -> dt_lt a b ->
              lt (timestamp a) (timestamp b).

(** * Properties *)

(** ** The error monad *)

Lemma bind_Ok_inv {A B : Type} (r : result A) (k : A -> result B) (b : B) :
  bind r k = Ok b -> exists a, r = Ok a /\ k a = Ok b.
Proof.
  destruct r as [a|e]; simpl; intros H.
  - exists a. split; [reflexivity | exact H].
  - discriminate H.
Qed.

Lemma mapM_length {A B : Type} (f : A -> result B) :
  forall l bs, mapM f l = Ok bs -> length bs = length l.
Proof.
  induction l as [|a l IH]; simpl; intros bs H.
  - injection H as <-. reflexivity.
  - apply bind_Ok_inv in H as (b & _ & H).
    apply bind_Ok_inv in H as (bs' & Hbs & H).
    injection H as <-. simpl. f_equal. apply IH. exact Hbs.
Qed.

Lemma mapM_Forall {A B : Type} (f : A -> result B) (P : B -> Prop) :
  (forall a b, f a = Ok b -> P b) ->
  forall l bs, mapM f l = Ok bs -> Forall P bs.
Proof.
  intros Hf. induction l as [|a l IH]; simpl; intros bs H.
  - injection H as <-. constructor.
  - apply bind_Ok_inv in H as (b & Hb & H).
    apply bind_Ok_inv in H as (bs' & Hbs & H).
    injection H as <-. constructor; eauto.
Qed.

(** A comprehension raises exactly when one of its elements does. *)
Lemma mapM_Raise_iff {A B : Type} (f : A -> result B) (l : list A) :
  (exists e, mapM f l = Raise e) <-> (exists a e, In a l /\ f a = Raise e).
Proof.
  induction l as [|a l IH]; simpl.
  - split; [intros [e H]; discriminate H | intros (a & e & [] & _)].
  - destruct (f a) as [b|e] eqn:Hfa; simpl.
    + destruct (mapM f l) as [bs|e'] eqn:Hl; simpl.
      * split; [intros [e H]; discriminate H|].
        intros (x & e & [<- | Hin] & Hx); [congruence|].
        destruct (proj2 IH) as [e' He']; [eauto | discriminate He'].
      * split; [|intros _; eauto].
        intros _. destruct (proj1 IH) as (x & e & Hin & Hx); eauto.
    + split; [|intros _; eauto]. intros _. exists a, e. auto.
Qed.

Lemma mapM_ext_Ok {A B : Type} (f : A -> result B) (g : A -> B) :
  forall l, Forall (fun a => f a = Ok (g a)) l -> mapM f l = Ok (map g l).
Proof.
  induction 1 as [|a l Ha _ IH]; simpl; [reflexivity|].
  rewrite Ha, IH. reflexivity.
Qed.

(** ** The calendar *)

Ltac bool_to_Z :=
  repeat match goal with
    | H : _ && _ = true |- _ => apply andb_true_iff in H; destruct H
    | H : _ || _ = true |- _ => apply orb_true_iff in H
    | H : negb _ = true |- _ => apply negb_true_iff in H
    | H : negb _ = false |- _ => apply negb_false_iff in H
    | H : (_ <=? _) = true |- _ => apply Z.leb_le in H
    | H : (_ <=? _) = false |- _ => apply Z.leb_gt in H
    | H : (_ <? _) = true |- _ => apply Z.ltb_lt in H
    | H : (_ <? _) = false |- _ => apply Z.ltb_ge in H
    | H : (_ =? _) = true |- _ => apply Z.eqb_eq in H
    | H : (_ =? _) = false |- _ => apply Z.eqb_neq in H
    end.

(** No two consecutive years are leap years. *)
Lemma _is_leap_succ (y : Z) : _is_leap y = true -> _is_leap (y + 1) = false.
Proof.
  unfold _is_leap. intros H. bool_to_Z.
  apply andb_false_iff. left. apply Z.eqb_neq.
  intros H1. apply Z.mod_divide in H, H1; try lia.
  destruct H as [a Ha], H1 as [b Hb]. lia.
Qed.

Lemma _days_in_month_range (y m : Z) :
  1 <= m <= 12 -> 28 <= _days_in_month y m <= 31.
Proof.
  intros Hm. unfold _days_in_month.
  destruct ((m =? 2) && _is_leap y); [lia|].
  assert (Hc : m = 1 \/ m = 2 \/ m = 3 \/ m = 4 \/ m = 5 \/ m = 6 \/ m = 7
               \/ m = 8 \/ m = 9 \/ m = 10 \/ m = 11 \/ m = 12) by lia.
  repeat (destruct Hc as [-> | Hc]; [simpl; lia|]). subst m. simpl. lia.
Qed.

(** Outside February the length of a month does not depend on the year. *)
Lemma _days_in_month_not_feb (y y' m : Z) :
  m <> 2 -> _days_in_month y m = _days_in_month y' m.
Proof.
  intros Hm. unfold _days_in_month.
  apply Z.eqb_neq in Hm. rewrite Hm. reflexivity.
Qed.

Lemma _days_in_feb (y : Z) :
  _days_in_month y 2 = if _is_leap y then 29 else 28.
Proof. unfold _days_in_month. simpl. destruct (_is_leap y); reflexivity. Qed.

(** ** The constructor and [replace] *)

Lemma new_datetime_valid (y m d : Z) :
  valid (mk_datetime y m d) = true -> new_datetime y m d = Ok (mk_datetime y m d).
Proof.
  unfold valid, new_datetime, _check_date_fields. simpl. intros H.
  repeat (apply andb_true_iff in H; destruct H as [H ?]).
  rewrite H, H0, H1, H2, H3, H4. reflexivity.
Qed.

Lemma new_datetime_Ok_inv (y m d : Z) (x : datetime) :
  new_datetime y m d = Ok x -> x = mk_datetime y m d /\ valid x = true.
Proof.
  unfold new_datetime, _check_date_fields, valid.
  destruct ((MINYEAR <=? y) && (y <=? MAXYEAR)) eqn:Hy; simpl; [|discriminate].
  destruct ((1 <=? m) && (m <=? 12)) eqn:Hm; simpl; [|discriminate].
  destruct ((1 <=? d) && (d <=? _days_in_month y m)) eqn:Hd; simpl; [|discriminate].
  intros H. injection H as <-. simpl. split; [reflexivity|].
  apply andb_true_iff in Hy as [-> ->], Hm as [-> ->], Hd as [-> ->].
  reflexivity.
Qed.

(** [datetime(y, m, d)] raises exactly on fields that name no object. *)
Lemma new_datetime_Raise_iff (y m d : Z) :
  (exists e, new_datetime y m d = Raise e) <-> valid (mk_datetime y m d) = false.
Proof.
  split.
  - intros [e He]. destruct (valid (mk_datetime y m d)) eqn:Hv; [|reflexivity].
    rewrite (new_datetime_valid _ _ _ Hv) in He. discriminate He.
  - intros Hv. destruct (new_datetime y m d) as [x|e] eqn:Hn; [|eauto].
    apply new_datetime_Ok_inv in Hn as [-> Hx]. congruence.
Qed.

Lemma seed_dates_constructed :
  mapM (fun '(y, m, d) => new_datetime y m d) seed_fields = Ok seed_dates.
Proof. reflexivity. Qed.

Lemma seed_dates_valid : Forall (fun d => valid d = true) seed_dates.
Proof. repeat constructor. Qed.

Lemma replace_Ok_inv (d d' : datetime) (y : Z) :
  replace d y = Ok d' -> d' = mk_datetime y (month d) (day d) /\ valid d' = true.
Proof. apply new_datetime_Ok_inv. Qed.

(** When [d.replace(year=d.year+1)] raises, for an object [d]. *)
Lemma replace_next_year_Raise_iff (d : datetime) :
  valid d = true ->
  (exists e, replace d (year d + 1) = Raise e) <->
  ((month d = 2 /\ day d = 29 /\ _is_leap (year d + 1) = false)
   \/ MAXYEAR < year d + 1).
Proof.
  intros Hv. unfold replace. rewrite new_datetime_Raise_iff.
  unfold valid in *. simpl. unfold MINYEAR, MAXYEAR in *.
  repeat (apply andb_true_iff in Hv; destruct Hv as [Hv ?]). bool_to_Z.
  destruct (Z.eq_dec (month d) 2) as [Hm|Hm].
  - rewrite Hm in *. rewrite _days_in_feb in *.
    destruct (_is_leap (year d)) eqn:Hl.
    + rewrite (_is_leap_succ _ Hl). split.
      * intros Hf. destruct (Z.eq_dec (day d) 29); [left; auto|].
        right. destruct (Z.leb_spec (year d + 1) 9999); [|lia].
        exfalso. revert Hf.
        replace (1 <=? year d + 1) with true by (symmetry; apply Z.leb_le; lia).
        replace (year d + 1 <=? 9999) with true by (symmetry; apply Z.leb_le; lia).
        replace (1 <=? day d) with true by (symmetry; apply Z.leb_le; lia).
        replace (day d <=? 28) with true by (symmetry; apply Z.leb_le; lia).
        discriminate.
      * intros [(_ & Hd & _) | Hy].
        -- rewrite Hd. simpl. repeat rewrite andb_false_r. reflexivity.
        -- replace (year d + 1 <=? 9999) with false by (symmetry; apply Z.leb_gt; lia).
           repeat rewrite andb_false_r. reflexivity.
    + split.
      * intros Hf. right. destruct (Z.leb_spec (year d + 1) 9999); [|lia].
        exfalso. revert Hf.
        replace (1 <=? year d + 1) with true by (symmetry; apply Z.leb_le; lia).
        replace (year d + 1 <=? 9999) with true by (symmetry; apply Z.leb_le; lia).
        replace (1 <=? day d) with true by (symmetry; apply Z.leb_le; lia).
        destruct (_is_leap (year d + 1));
          [replace (day d <=? 29) with true by (symmetry; apply Z.leb_le; lia)
          |replace (day d <=? 28) with true by (symmetry; apply Z.leb_le; lia)];
          discriminate.
      * intros [(_ & Hd & _) | Hy]; [lia|].
        replace (year d + 1 <=? 9999) with false by (symmetry; apply Z.leb_gt; lia).
        repeat rewrite andb_false_r. reflexivity.
  - rewrite (_days_in_month_not_feb (year d + 1) (year d) _ Hm). split.
    + intros Hf. right. destruct (Z.leb_spec (year d + 1) 9999); [|lia].
      exfalso. revert Hf.
      replace (1 <=? year d + 1) with true by (symmetry; apply Z.leb_le; lia).
      replace (year d + 1 <=? 9999) with true by (symmetry; apply Z.leb_le; lia).
      replace (1 <=? month d) with true by (symmetry; apply Z.leb_le; lia).
      replace (month d <=? 12) with true by (symmetry; apply Z.leb_le; lia).
      replace (1 <=? day d) with true by (symmetry; apply Z.leb_le; lia).
      replace (day d <=? _days_in_month (year d) (month d)) with true
        by (symmetry; apply Z.leb_le; lia).
      discriminate.
    + intros [(Hm' & _) | Hy]; [contradiction|].
      replace (year d + 1 <=? 9999) with false by (symmetry; apply Z.leb_gt; lia).
      repeat rewrite andb_false_r. reflexivity.
Qed.

(** The next-year date of an object that is not a leap day and not in the
    last supported year. *)
Lemma replace_next_year_Ok (d : datetime) :
  valid d = true -> leap_day d = false -> year d < MAXYEAR ->
  replace d (year d + 1) = Ok (add_years 1 d).
Proof.
  intros Hv Hl Hy.
  destruct (replace d (year d + 1)) as [d'|e] eqn:Hr.
  - apply replace_Ok_inv in Hr as [-> _]. reflexivity.
  - exfalso.
    destruct (proj1 (replace_next_year_Raise_iff d Hv)) as [(Hm & Hd & _) | H];
      [eauto | | lia].
    unfold leap_day in Hl. rewrite Hm, Hd in Hl. discriminate Hl.
Qed.

Lemma add_years_add (j k : Z) (d : datetime) :
  add_years j (add_years k d) = add_years (k + j) d.
Proof. unfold add_years. simpl. f_equal. lia. Qed.

Lemma add_years_leap_day (k : Z) (d : datetime) :
  leap_day (add_years k d) = leap_day d.
Proof. reflexivity. Qed.

(** Adding years to a date that is not a leap day gives an object as long as
    the year stays in range. *)
Lemma add_years_valid (k : Z) (d : datetime) :
  valid d = true -> leap_day d = false -> 0 <= k -> year d + k <= MAXYEAR ->
  valid (add_years k d) = true.
Proof.
  intros Hv Hl Hk Hy. unfold valid, leap_day, MINYEAR, MAXYEAR in *. simpl.
  repeat (apply andb_true_iff in Hv; destruct Hv as [Hv ?]). bool_to_Z.
  assert (Hdim : day d <= _days_in_month (year d + k) (month d)).
  { destruct (Z.eq_dec (month d) 2) as [Hm|Hm].
    - rewrite Hm in *. rewrite _days_in_feb in *. simpl in Hl. bool_to_Z.
      destruct (_is_leap (year d)), (_is_leap (year d + k)); lia.
    - rewrite (_days_in_month_not_feb (year d + k) (year d) _ Hm). lia. }
  repeat (apply andb_true_iff; split); try apply Z.leb_le; lia.
Qed.

(** A later date of the same lineage compares greater. *)
Lemma add_years_lt (j k : Z) (d : datetime) :
  j < k -> dt_lt (add_years j d) (add_years k d).
Proof.
  intros H. unfold dt_lt, dt_ltb. simpl.
  apply orb_true_iff. left. apply Z.ltb_lt. lia.
Qed.

(** ** The working set *)

Lemma advance_length (ds ds' : list datetime) :
  advance ds = Ok ds' -> length ds' = length ds.
Proof. apply mapM_length. Qed.

Lemma advance_valid (ds ds' : list datetime) :
  advance ds = Ok ds' -> Forall (fun d => valid d = true) ds'.
Proof.
  apply mapM_Forall. intros a b H. apply replace_Ok_inv in H. tauto.
Qed.

Lemma iterM_advance_add_years (n : nat) :
  forall ds, Forall (advances (Z.of_nat n)) ds ->
  iterM advance n ds = Ok (map (add_years (Z.of_nat n)) ds).
Proof.
  induction n as [|n IH]; intros ds Hds.
  - simpl. f_equal. rewrite <- (map_id ds) at 1.
    apply map_ext. intros [y m d]. unfold add_years. simpl. f_equal. lia.
  - cbn [iterM]. unfold advance at 1.
    rewrite (mapM_ext_Ok _ (add_years 1)).
    + cbn [bind]. rewrite IH.
      * rewrite map_map. f_equal. apply map_ext. intros d.
        rewrite add_years_add. f_equal. lia.
      * rewrite Forall_map. eapply Forall_impl; [|exact Hds].
        intros d (Hv & Hl & Hy). unfold advances.
        rewrite add_years_leap_day. split; [|split; [exact Hl|simpl; lia]].
        apply add_years_valid; auto; lia.
    + eapply Forall_impl; [|exact Hds].
      intros d (Hv & Hl & Hy). apply replace_next_year_Ok; auto; lia.
Qed.

Lemma converted_length (n : nat) :
  forall ds cs, converted n ds = Ok cs -> length cs = (n * length ds)%nat.
Proof.
  induction n as [|n IH]; simpl; intros ds cs H.
  - injection H as <-. reflexivity.
  - apply bind_Ok_inv in H as (ds' & Hds' & H).
    apply bind_Ok_inv in H as (rest & Hrest & H).
    injection H as <-. rewrite length_app, (IH _ _ Hrest).
    rewrite (advance_length _ _ Hds'). reflexivity.
Qed.

Lemma converted_valid (n : nat) :
  forall ds cs, converted n ds = Ok cs -> Forall (fun d => valid d = true) cs.
Proof.
  induction n as [|n IH]; simpl; intros ds cs H.
  - injection H as <-. constructor.
  - apply bind_Ok_inv in H as (ds' & Hds' & H).
    apply bind_Ok_inv in H as (rest & Hrest & H).
    injection H as <-. apply Forall_app. split.
    + eapply advance_valid; eauto.
    + eapply IH; eauto.
Qed.

(** The conversions of [n] iterations are the working sets after 1, ..., [n]
    iterations, one after the other. *)
Lemma converted_blocks (n : nat) :
  forall ds, Forall (advances (Z.of_nat n)) ds ->
  converted n ds =
  Ok (flat_map (fun k => map (add_years (Z.of_nat k)) ds) (seq 1 n)).
Proof.
  induction n as [|n IH]; intros ds Hds; [reflexivity|].
  cbn [converted]. unfold advance.
  rewrite (mapM_ext_Ok _ (add_years 1)).
  - cbn [bind]. rewrite IH.
    + cbn [bind seq flat_map]. f_equal.
      change (Z.of_nat 1) with 1. apply (f_equal (app _)).
      rewrite <- (seq_shift n 1).
      rewrite (flat_map_concat_map _ (map S _)), map_map,
        <- flat_map_concat_map.
      apply flat_map_ext. intros k. rewrite map_map. apply map_ext. intros d.
      rewrite add_years_add. f_equal. lia.
    + rewrite Forall_map. eapply Forall_impl; [|exact Hds].
      intros d (Hv & Hl & Hy). unfold advances.
      rewrite add_years_leap_day. split; [|split; [exact Hl|simpl; lia]].
      apply add_years_valid; auto; lia.
  - eapply Forall_impl; [|exact Hds].
    intros d (Hv & Hl & Hy). apply replace_next_year_Ok; auto; lia.
Qed.

Lemma seed_dates_advances (k : Z) :
  k <= 7975 -> Forall (advances k) seed_dates.
Proof.
  intros Hk. unfold advances, MAXYEAR, seed_dates.
  repeat (apply Forall_cons;
          [split; [reflexivity | split; [reflexivity | cbn [year]; lia]] |]).
  apply Forall_nil.
Qed.

(** ** The loop *)

Section Loop.
Variable T : Type.
Variable timestamp : datetime -> T.

Lemma after_S (n : nat) (s : state T) :
  after timestamp (S n) s = s' <- body timestamp s ;; after timestamp n s'.
Proof. reflexivity. Qed.

(** Running the body after [n] iterations is the same as running it first. *)
Lemma after_S_last (n : nat) :
  forall s : state T, after timestamp (S n) s = s' <- after timestamp n s ;; body timestamp s'.
Proof.
  induction n as [|n IH]; intros s.
  - unfold after. simpl. destruct (body timestamp s); reflexivity.
  - rewrite after_S. rewrite (after_S n s).
    destruct (body timestamp s) as [s1|e]; [|reflexivity].
    cbn [bind]. apply IH.
Qed.

(** The body only appends: the old accumulator is a prefix of the new one,
    and the new part is the conversion of the new working set. *)
Lemma body_Ok_inv (s s' : state T) :
  body timestamp s = Ok s' ->
  advance (dates s) = Ok (dates s') /\
  timestamps s' = timestamps s ++ map timestamp (dates s').
Proof.
  unfold body. intros H.
  apply bind_Ok_inv in H as (ds & Hds & H).
  injection H as <-. simpl. auto.
Qed.

(** The state after [n] iterations, in terms of the dates alone. *)
Lemma after_spec (n : nat) :
  forall s : state T,
  after timestamp n s =
  ds <- iterM advance n (dates s) ;;
  cs <- converted n (dates s) ;;
  Ok {| dates := ds; timestamps := timestamps s ++ map timestamp cs |}.
Proof.
  induction n as [|n IH]; intros s.
  - simpl. rewrite app_nil_r. destruct s; reflexivity.
  - rewrite after_S. unfold body. cbn [iterM converted].
    destruct (advance (dates s)) as [ds1|e]; [|reflexivity].
    cbn [bind]. rewrite IH. cbn [dates timestamps].
    destruct (iterM advance n ds1) as [ds'|e]; [|reflexivity].
    cbn [bind].
    destruct (converted n ds1) as [rest|e]; [|reflexivity].
    cbn [bind]. rewrite map_app, app_assoc. reflexivity.
Qed.

Lemma after_length (n : nat) (s s' : state T) :
  after timestamp n s = Ok s' ->
  length (timestamps s') = (length (timestamps s) + n * length (dates s))%nat.
Proof.
  rewrite after_spec. intros H.
  apply bind_Ok_inv in H as (ds & _ & H).
  apply bind_Ok_inv in H as (cs & Hcs & H).
  injection H as <-. simpl.
  rewrite length_app, length_map, (converted_length _ _ _ Hcs). reflexivity.
Qed.

(** The loop leaves through its guard after [n] iterations when the guard
    holds after each of the first [n] and fails after the [n]-th. *)
Lemma while_loop_exit (n : nat) :
  forall (s s' : state T) (fuel : nat),
  after timestamp n s = Ok s' ->
  (forall k sk, (k < n)%nat -> after timestamp k s = Ok sk -> guard sk = true) ->
  guard s' = false ->
  (n <= fuel)%nat ->
  while_loop timestamp fuel s = Some {| iterations := n; outcome := Ok s' |}.
Proof.
  induction n as [|n IH]; intros s s' fuel Hn Hlt Hge Hfuel.
  - injection Hn as <-. destruct fuel; simpl; rewrite Hge; reflexivity.
  - destruct fuel as [|fuel]; [lia|].
    rewrite after_S in Hn. cbn [while_loop].
    rewrite (Hlt 0%nat s) by (reflexivity || lia).
    destruct (body timestamp s) as [s1|e] eqn:Hb; [|discriminate Hn].
    cbn [bind] in Hn. rewrite (IH s1 s'); [reflexivity | exact Hn | | exact Hge | lia].
    intros k sk Hk Hsk. apply (Hlt (S k)); [lia|].
    rewrite after_S, Hb. exact Hsk.
Qed.

(** With fewer than [n] body executions allowed, it cannot finish. *)
Lemma while_loop_out_of_fuel (fuel : nat) :
  forall s : state T,
  (forall k, (k <= fuel)%nat -> exists sk, after timestamp k s = Ok sk /\ guard sk = true) ->
  while_loop timestamp fuel s = None.
Proof.
  induction fuel as [|fuel IH]; intros s H.
  - destruct (H 0%nat) as (s0 & Hs0 & Hg); [lia|].
    injection Hs0 as <-. simpl. rewrite Hg. reflexivity.
  - destruct (H 0%nat) as (s0 & Hs0 & Hg); [lia|].
    injection Hs0 as <-. cbn [while_loop]. rewrite Hg.
    destruct (H 1%nat) as (s1 & Hs1 & _); [lia|].
    rewrite after_S in Hs1.
    destruct (body timestamp s) as [s1'|e] eqn:Hb; [|discriminate Hs1].
    rewrite IH; [reflexivity|].
    intros k Hk. destruct (H (S k)) as (sk & Hsk & Hgk); [lia|].
    rewrite after_S, Hb in Hsk. eauto.
Qed.

(** The loop is left by an exception in iteration [n + 1] when the guard
    holds up to there and the body raises. *)
Lemma while_loop_raise (n : nat) :
  forall (s sn : state T) (e : exn) (fuel : nat),
  after timestamp n s = Ok sn ->
  (forall k sk, (k <= n)%nat -> after timestamp k s = Ok sk -> guard sk = true) ->
  body timestamp sn = Raise e ->
  (n < fuel)%nat ->
  while_loop timestamp fuel s = Some {| iterations := n; outcome := Raise e |}.
Proof.
  induction n as [|n IH]; intros s sn e fuel Hn Hg Hr Hfuel.
  - injection Hn as <-. destruct fuel as [|fuel]; [lia|].
    cbn [while_loop].
    rewrite (Hg 0%nat s) by (reflexivity || lia). rewrite Hr. reflexivity.
  - destruct fuel as [|fuel]; [lia|].
    rewrite after_S in Hn. cbn [while_loop].
    rewrite (Hg 0%nat s) by (reflexivity || lia).
    destruct (body timestamp s) as [s1|e1] eqn:Hb; [|discriminate Hn].
    cbn [bind] in Hn. rewrite (IH s1 sn e); [reflexivity | exact Hn | | exact Hr | lia].
    intros k sk Hk Hsk. apply (Hg (S k)); [lia|].
    rewrite after_S, Hb. exact Hsk.
Qed.

(** An exception in the loop reaches the top level: nothing is printed. *)
Lemma script_Traceback (seeds : list datetime) (fuel n : nat) (e : exn) :
  while_loop timestamp fuel {| dates := seeds; timestamps := [] |}
  = Some {| iterations := n; outcome := Raise e |} ->
  script timestamp seeds fuel = Some (Traceback e).
Proof. unfold script. intros ->. reflexivity. Qed.
End Loop.


(** ** The run from the four seed dates *)

Lemma working_set_length (k : nat) : length (working_set k) = 4%nat.
Proof. unfold working_set. rewrite length_map. reflexivity. Qed.

Lemma working_sets_length (n : nat) :
  forall a, length (flat_map working_set (seq a n)) = (4 * n)%nat.
Proof.
  induction n as [|n IH]; intros a; [reflexivity|].
  cbn [seq flat_map]. rewrite length_app, working_set_length, IH. lia.
Qed.

Lemma schedule_length (n : nat) : length (schedule n) = (4 * n)%nat.
Proof. apply working_sets_length. Qed.

Lemma schedule_S (n : nat) :
  schedule (S n) = schedule n ++ working_set (S n).
Proof.
  unfold schedule. rewrite seq_S, flat_map_app. cbn [flat_map].
  rewrite app_nil_r. reflexivity.
Qed.

Section Main.
Variable T : Type.
Variable timestamp : datetime -> T.

(** No year increment fails in the first 7975 iterations, and the state after
    [k] of them holds the seed dates moved [k] years on and the conversions of
    all the working sets so far. *)
Lemma after_initial (k : nat) :
  Z.of_nat k <= 7975 ->
  after timestamp k (initial T)
  = Ok {| dates := working_set k; timestamps := map timestamp (schedule k) |}.
Proof.
  intros Hk. rewrite after_spec. cbn [initial dates timestamps app].
  rewrite iterM_advance_add_years, converted_blocks
    by (apply seed_dates_advances; lia).
  reflexivity.
Qed.

Lemma guard_after_initial (k : nat) :
  guard {| dates := working_set k; timestamps := map timestamp (schedule k) |}
  = (k <? 20)%nat.
Proof.
  unfold guard. cbn [timestamps]. rewrite length_map, schedule_length.
  destruct (Nat.ltb_spec k 20); [apply Nat.ltb_lt | apply Nat.ltb_ge]; lia.
Qed.

(** The loop is left through its guard after 20 iterations. *)
Lemma while_loop_initial (fuel : nat) :
  (20 <= fuel)%nat ->
  while_loop timestamp fuel (initial T)
  = Some {| iterations := 20;
            outcome := Ok {| dates := working_set 20;
                             timestamps := map timestamp (schedule 20) |} |}.
Proof.
  intros Hfuel. apply while_loop_exit.
  - apply after_initial. lia.
  - intros k sk Hk Hsk. rewrite after_initial in Hsk by lia.
    injection Hsk as <-. rewrite guard_after_initial. apply Nat.ltb_lt. exact Hk.
  - apply guard_after_initial.
  - exact Hfuel.
Qed.

Lemma main_Printed (fuel : nat) :
  (20 <= fuel)%nat ->
  main timestamp fuel = Some (Printed (map timestamp (schedule 20))).
Proof.
  intros Hfuel. unfold main, script.
  change {| dates := seed_dates; timestamps := [] |} with (initial T).
  rewrite while_loop_initial by exact Hfuel. reflexivity.
Qed.

End Main.

(** The 80 converted dates, written out. *)
Lemma schedule_20 :
  schedule 20 =
  flat_map (fun k => let y := 2024 + Z.of_nat k in
                     [mk_datetime y 11 25; mk_datetime (y + 1) 2 25;
                      mk_datetime (y + 1) 5 24; mk_datetime (y + 1) 8 29])
           (seq 0 20).
Proof. vm_compute. reflexivity. Qed.


(** ** Local time *)

Lemma month_cases (m : Z) :
  1 <= m <= 12 ->
  m = 1 \/ m = 2 \/ m = 3 \/ m = 4 \/ m = 5 \/ m = 6 \/ m = 7 \/ m = 8
  \/ m = 9 \/ m = 10 \/ m = 11 \/ m = 12.
Proof. lia. Qed.

Ltac each_month H :=
  apply month_cases in H;
  repeat (destruct H as [-> | H]); [..|subst].

(** A year has 365 days, or 366 when it is a leap year. *)
Lemma _days_before_year_succ (y : Z) :
  _days_before_year (y + 1)
  = _days_before_year y + (if _is_leap y then 366 else 365).
Proof.
  unfold _days_before_year, _is_leap.
  replace (y + 1 - 1) with y by lia.
  destruct (y mod 4 =? 0) eqn:H4; destruct (y mod 100 =? 0) eqn:H100;
    destruct (y mod 400 =? 0) eqn:H400; simpl; bool_to_Z;
    Z.div_mod_to_equations; lia.
Qed.

Lemma _days_before_year_mono (y y' : Z) :
  y <= y' -> _days_before_year y <= _days_before_year y'.
Proof.
  unfold _days_before_year. intros H. Z.div_mod_to_equations. lia.
Qed.

(** The days before a month and the days of the month stay within the year. *)
Lemma _days_before_month_bound (y m : Z) :
  1 <= m <= 12 ->
  0 <= _days_before_month y m /\
  _days_before_month y m + _days_in_month y m
  <= (if _is_leap y then 366 else 365).
Proof.
  intros Hm. unfold _days_before_month, _days_in_month.
  each_month Hm; destruct (_is_leap y); simpl; lia.
Qed.

Lemma _days_before_month_mono (y m m' : Z) :
  1 <= m <= 12 -> 1 <= m' <= 12 -> m < m' ->
  _days_before_month y m + _days_in_month y m <= _days_before_month y m'.
Proof.
  intros Hm Hm' Hlt. unfold _days_before_month, _days_in_month.
  each_month Hm; each_month Hm'; try lia; destruct (_is_leap y); simpl; lia.
Qed.

(** The ordinal of a date grows with the date. *)
Lemma _ymd2ord_lt (a b : datetime) :
  valid a = true -> valid b = true -> dt_lt a b ->
  _ymd2ord (year a) (month a) (day a) < _ymd2ord (year b) (month b) (day b).
Proof.
  unfold valid, dt_lt, dt_ltb, _ymd2ord. intros Ha Hb Hlt.
  repeat (apply andb_true_iff in Ha; destruct Ha as [Ha ?]).
  repeat (apply andb_true_iff in Hb; destruct Hb as [Hb ?]).
  bool_to_Z.
  pose proof (_days_before_month_bound (year a) (month a) ltac:(lia)) as [_ Ba].
  pose proof (_days_before_month_bound (year b) (month b) ltac:(lia)) as [Bb _].
  destruct Hlt as [Hy | Hlt].
  - bool_to_Z.
    pose proof (_days_before_year_succ (year a)) as Hs.
    pose proof (_days_before_year_mono (year a + 1) (year b) ltac:(lia)).
    lia.
  - bool_to_Z. destruct H10 as [Hm | Hd]; bool_to_Z.
    + rewrite <- H9 in *.
      pose proof (_days_before_month_mono (year a) (month a) (month b)
                    ltac:(lia) ltac:(lia) Hm).
      lia.
    + rewrite <- H9, <- H10 in *. lia.
Qed.

Lemma seconds_since_epoch_lt (a b : datetime) :
  valid a = true -> valid b = true -> dt_lt a b ->
  LocalTime.seconds_since_epoch a < LocalTime.seconds_since_epoch b.
Proof.
  intros Ha Hb Hlt. unfold LocalTime.seconds_since_epoch.
  pose proof (_ymd2ord_lt a b Ha Hb Hlt). lia.
Qed.

(** In a zone without transitions [_mktime] takes its first exit: the wall
    clock minus the offset. *)
Lemma timestamp_fixed_offset (off : Z) (d : datetime) :
  LocalTime.timestamp (LocalTime.fixed_offset off) d
  = LocalTime.seconds_since_epoch d - off.
Proof.
  unfold LocalTime.timestamp, LocalTime._mktime, LocalTime.local,
    LocalTime.fixed_offset.
  set (t := LocalTime.seconds_since_epoch d).
  replace (t - (t + off - t) + off =? t) with true
    by (symmetry; apply Z.eqb_eq; lia).
  replace (t + off - t =?
           t - (t + off - t) - LocalTime.max_fold_seconds + off
           - (t - (t + off - t) - LocalTime.max_fold_seconds)) with true
    by (symmetry; apply Z.eqb_eq; lia).
  simpl. lia.
Qed.

(** So a fixed-offset zone converts later dates to larger timestamps. *)
Lemma timestamp_fixed_offset_lt (off : Z) (a b : datetime) :
  valid a = true -> valid b = true -> dt_lt a b ->
  LocalTime.timestamp (LocalTime.fixed_offset off) a
  < LocalTime.timestamp (LocalTime.fixed_offset off) b.
Proof.
  intros Ha Hb Hlt. rewrite !timestamp_fixed_offset.
  pose proof (seconds_since_epoch_lt a b Ha Hb Hlt). lia.
Qed.

(** In UTC the first converted date, 2024-11-25, is 1732492800. *)
Example timestamp_utc_first :
  LocalTime.timestamp (LocalTime.fixed_offset 0) (mk_datetime 2024 11 25)
  = 1732492800.
Proof. reflexivity. Qed.


(** ** Blocks of the output *)

(** Block [k] of the first [n] blocks is the working set after [k + 1]
    iterations. *)
Lemma schedule_block (n : nat) :
  forall k, (k < n)%nat ->
  firstn 4 (skipn (4 * k) (schedule n)) = working_set (S k).
Proof.
  induction n as [|n IH]; intros k Hk; [lia|].
  rewrite schedule_S, skipn_app, firstn_app, schedule_length.
  destruct (Nat.eq_dec k n) as [->|Hne].
  - rewrite skipn_all2 by (rewrite schedule_length; lia).
    replace (4 * n - 4 * n)%nat with 0%nat by lia. cbn [skipn length firstn app].
    replace (4 - 0)%nat with (length (working_set (S n)))
      by (rewrite working_set_length; reflexivity).
    apply firstn_all.
  - rewrite length_skipn, schedule_length.
    replace (4 - (4 * n - 4 * k))%nat with 0%nat by lia.
    rewrite firstn_O, app_nil_r. apply IH. lia.
Qed.

Lemma datetime_eqb_eq (a b : datetime) : datetime_eqb a b = true <-> a = b.
Proof.
  unfold datetime_eqb. destruct a, b. simpl. split.
  - intros H. bool_to_Z. congruence.
  - intros H. injection H as -> -> ->. rewrite !Z.eqb_refl. reflexivity.
Qed.

Lemma seed_dates_not_converted (d : datetime) :
  In d seed_dates -> ~ In d (schedule 20).
Proof.
  intros Hs Hc.
  assert (Hb : forallb (fun s => negb (existsb (datetime_eqb s) (schedule 20)))
                       seed_dates = true) by (vm_compute; reflexivity).
  rewrite forallb_forall in Hb. specialize (Hb d Hs).
  apply negb_true_iff in Hb.
  assert (Ht : existsb (datetime_eqb d) (schedule 20) = true).
  { apply existsb_exists. exists d. split; [exact Hc|]. apply datetime_eqb_eq. reflexivity. }
  congruence.
Qed.

(** * The claims *)

(** C1: with the four fixed seed dates the printed accumulator has exactly 80
    values, made of 20 consecutive blocks of 4: block [k] is the conversion,
    in working-set order, of the working set after iteration [k]. *)
Theorem C1_accumulator_80_values_in_20_blocks
    (T : Type) (timestamp : datetime -> T) (fuel : nat) :
  (20 <= fuel)%nat ->
  exists out,
    main timestamp fuel = Some (Printed out) /\
    length out = 80%nat /\
    out = flat_map (fun k => map timestamp (working_set k)) (seq 1 20) /\
    forall k, (k < 20)%nat ->
      exists s,
        after timestamp (S k) (initial T) = Ok s /\
        length (dates s) = 4%nat /\
        firstn 4 (skipn (4 * k) out) = map timestamp (dates s).
Proof.
  intros Hfuel. exists (map timestamp (schedule 20)).
  split; [apply main_Printed; exact Hfuel|].
  split; [rewrite length_map, schedule_length; reflexivity|].
  split.
  - unfold schedule. rewrite flat_map_concat_map, concat_map, map_map,
      <- flat_map_concat_map. reflexivity.
  - intros k Hk. eexists. split; [apply after_initial; lia|].
    cbn [dates]. split; [apply working_set_length|].
    rewrite skipn_map, firstn_map, schedule_block by exact Hk. reflexivity.
Qed.

Lemma C1_witness :
  exists out,
    main (LocalTime.timestamp (LocalTime.fixed_offset 0)) 20
    = Some (Printed out) /\
    length out = 80%nat /\
    out = flat_map (fun k =>
                      map (LocalTime.timestamp (LocalTime.fixed_offset 0))
                          (working_set k)) (seq 1 20) /\
    forall k, (k < 20)%nat ->
      exists s,
        after (LocalTime.timestamp (LocalTime.fixed_offset 0)) (S k) (initial Z)
        = Ok s /\
        length (dates s) = 4%nat /\
        firstn 4 (skipn (4 * k) out)
        = map (LocalTime.timestamp (LocalTime.fixed_offset 0)) (dates s).
Proof.
  apply (C1_accumulator_80_values_in_20_blocks
           Z (LocalTime.timestamp (LocalTime.fixed_offset 0)) 20).
  apply Nat.le_refl.
Defined.

(** C2: the loop guarded by [len(timestamps) < 80] terminates, after exactly
    20 iterations: each iteration appends 4 values, the guard holds after
    each of the first 19, and iteration 20 is the first to leave at least 80
    values; with fewer than 20 body executions the loop has not finished. *)
Theorem C2_loop_terminates_after_20_iterations
    (T : Type) (timestamp : datetime -> T) (fuel : nat) :
  (20 <= fuel)%nat ->
  exists s,
    while_loop timestamp fuel (initial T)
    = Some {| iterations := 20; outcome := Ok s |} /\
    after timestamp 20 (initial T) = Ok s /\
    guard s = false /\
    (80 <= length (timestamps s))%nat /\
    (forall k, (k < 20)%nat ->
       exists sk sk',
         after timestamp k (initial T) = Ok sk /\
         guard sk = true /\
         (length (timestamps sk) < 80)%nat /\
         body timestamp sk = Ok sk' /\
         length (timestamps sk') = (length (timestamps sk) + 4)%nat) /\
    (forall less, (less < 20)%nat ->
       while_loop timestamp less (initial T) = None).
Proof.
  intros Hfuel. eexists.
  split; [apply while_loop_initial; exact Hfuel|].
  split; [apply after_initial; lia|].
  split; [apply guard_after_initial|].
  split; [cbn [timestamps]; rewrite length_map, schedule_length; lia|].
  split.
  - intros k Hk.
    pose proof (after_initial T timestamp (S k) ltac:(lia)) as HS.
    rewrite after_S_last, after_initial in HS by lia. cbn [bind] in HS.
    do 2 eexists. split; [apply after_initial; lia|].
    split; [rewrite guard_after_initial; apply Nat.ltb_lt; exact Hk|].
    split; [cbn [timestamps]; rewrite length_map, schedule_length; lia|].
    split; [exact HS|].
    cbn [timestamps]. rewrite !length_map, !schedule_length. lia.
  - intros less Hless. apply while_loop_out_of_fuel.
    intros k Hk. eexists. split; [apply after_initial; lia|].
    rewrite guard_after_initial. apply Nat.ltb_lt. lia.
Qed.

Lemma C2_witness :
  (20 <= 25)%nat /\
  exists s,
    while_loop (LocalTime.timestamp (LocalTime.fixed_offset 0)) 25 (initial Z)
    = Some {| iterations := 20; outcome := Ok s |} /\
    guard s = false.
Proof.
  assert (Hfuel : (20 <= 25)%nat) by lia.
  split; [exact Hfuel|].
  destruct (C2_loop_terminates_after_20_iterations
              Z (LocalTime.timestamp (LocalTime.fixed_offset 0)) 25 Hfuel)
    as (s & Hloop & _ & Hguard & _).
  exists s. split; [exact Hloop | exact Hguard].
Defined.

(** ** Order of the output *)

(** Position [4k + i] of the schedule holds seed [i] moved [k + 1] years on. *)
Lemma schedule_nth_error (n k i : nat) :
  (k < n)%nat -> (i < 4)%nat ->
  nth_error (schedule n) (4 * k + i)
  = option_map (add_years (Z.of_nat (S k))) (nth_error seed_dates i).
Proof.
  intros Hk Hi.
  rewrite <- nth_error_skipn.
  replace (nth_error (skipn (4 * k) (schedule n)) i)
    with (nth_error (firstn 4 (skipn (4 * k) (schedule n))) i).
  - rewrite schedule_block by exact Hk. apply nth_error_map.
  - rewrite nth_error_firstn. apply Nat.ltb_lt in Hi. rewrite Hi. reflexivity.
Qed.

Lemma seed_dates_nth_error (i : nat) :
  (i < 4)%nat ->
  exists s, nth_error seed_dates i = Some s /\ advances 7975 s.
Proof.
  intros Hi. pose proof (seed_dates_advances 7975 ltac:(lia)) as Hall.
  destruct (nth_error seed_dates i) as [s|] eqn:Hs.
  - exists s. split; [reflexivity|].
    rewrite Forall_forall in Hall. apply Hall. eapply nth_error_In. exact Hs.
  - apply nth_error_None in Hs. simpl in Hs. lia.
Qed.

Lemma add_years_mono (k : Z) (a b : datetime) :
  dt_lt a b -> dt_lt (add_years k a) (add_years k b).
Proof.
  unfold dt_lt, dt_ltb. simpl. intros H.
  apply orb_true_iff in H as [H | H].
  - apply orb_true_iff. left. bool_to_Z. apply Z.ltb_lt. lia.
  - apply orb_true_iff. right. apply andb_true_iff in H as [Hy H].
    rewrite H. bool_to_Z. rewrite andb_true_r. apply Z.eqb_eq. lia.
Qed.

(** Within the seed list each date is followed by a later one, and the last
    one by the first of the next year. *)
Lemma seed_dates_next (i : nat) (a b : datetime) (k : Z) :
  nth_error seed_dates (i mod 4) = Some a ->
  nth_error seed_dates (S i mod 4) = Some b ->
  dt_lt (add_years k a) (add_years (if (S i mod 4 =? 0)%nat then k + 1 else k) b).
Proof.
  assert (Hi : (i mod 4 < 4)%nat) by (apply Nat.mod_upper_bound; lia).
  assert (HS : (S i mod 4 = if (i mod 4 =? 3)%nat then 0 else S (i mod 4))%nat).
  { destruct (Nat.eqb_spec (i mod 4) 3) as [E|E].
    - rewrite (Nat.div_mod_eq i 4), E.
      replace (S (4 * (i / 4) + 3)) with (0 + (S (i / 4)) * 4)%nat by lia.
      apply Nat.Div0.mod_add.
    - rewrite (Nat.div_mod_eq i 4) at 1.
      replace (S (4 * (i / 4) + i mod 4)) with (S (i mod 4) + (i / 4) * 4)%nat by lia.
      rewrite Nat.Div0.mod_add. apply Nat.mod_small. lia. }
  rewrite HS. clear HS. revert Hi.
  generalize (i mod 4)%nat as r. intros r Hr.
  destruct r as [|[|[|[|r]]]]; [..|lia]; cbn [Nat.eqb nth_error seed_dates];
    intros Ha Hb; injection Ha as <-; injection Hb as <-;
    unfold dt_lt, dt_ltb, add_years; cbn [year month day].
  - apply orb_true_iff. left. apply Z.ltb_lt. lia.
  - rewrite Z.eqb_refl. rewrite orb_true_r. reflexivity.
  - rewrite Z.eqb_refl. rewrite orb_true_r. reflexivity.
  - replace (2023 + (k + 1)) with (2024 + k) by lia.
    rewrite Z.eqb_refl. rewrite orb_true_r. reflexivity.
Qed.

(** C3: the accumulator is strictly block-monotonic: for every seed index
    [i < 4] and iteration index [k <= 18], entry [4k + i] is less than entry
    [4(k + 1) + i], given a conversion that is strictly monotone in the
    calendar date. *)
Theorem C3_block_monotonic
    (T : Type) (lt : T -> T -> Prop) (timestamp : datetime -> T) (fuel : nat) :
  strictly_monotone lt timestamp ->
  (20 <= fuel)%nat ->
  exists out,
    main timestamp fuel = Some (Printed out) /\
    forall i k, (i < 4)%nat -> (k <= 18)%nat ->
      exists x y,
        nth_error out (4 * k + i) = Some x /\
        nth_error out (4 * (k + 1) + i) = Some y /\
        lt x y.
Proof.
  intros Hmono Hfuel. exists (map timestamp (schedule 20)).
  split; [apply main_Printed; exact Hfuel|].
  intros i k Hi Hk.
  destruct (seed_dates_nth_error i Hi) as (s & Hs & Hv & Hl & Hy).
  unfold MAXYEAR in Hy.
  rewrite !nth_error_map, !schedule_nth_error, Hs by lia. cbn [option_map].
  do 2 eexists. split; [reflexivity|]. split; [reflexivity|].
  apply Hmono.
  - apply add_years_valid; auto; unfold MAXYEAR; lia.
  - apply add_years_valid; auto; unfold MAXYEAR; lia.
  - apply add_years_lt. lia.
Qed.

Lemma C3_witness :
  exists out,
    main (LocalTime.timestamp (LocalTime.fixed_offset 3600)) 20
    = Some (Printed out) /\
    forall i k, (i < 4)%nat -> (k <= 18)%nat ->
      exists x y,
        nth_error out (4 * k + i) = Some x /\
        nth_error out (4 * (k + 1) + i) = Some y /\
        x < y.
Proof.
  apply (C3_block_monotonic Z Z.lt
           (LocalTime.timestamp (LocalTime.fixed_offset 3600)) 20).
  - intros a b Ha Hb Hlt. apply timestamp_fixed_offset_lt; assumption.
  - apply Nat.le_refl.
Defined.

(** C10: the whole output is strictly increasing: for every [j <= 78], entry
    [j] is less than entry [j + 1], given a conversion that is strictly
    monotone in the calendar date. *)
Theorem C10_strictly_increasing
    (T : Type) (lt : T -> T -> Prop) (timestamp : datetime -> T) (fuel : nat) :
  strictly_monotone lt timestamp ->
  (20 <= fuel)%nat ->
  exists out,
    main timestamp fuel = Some (Printed out) /\
    forall j, (j <= 78)%nat ->
      exists x y,
        nth_error out j = Some x /\
        nth_error out (j + 1) = Some y /\
        lt x y.
Proof.
  intros Hmono Hfuel. exists (map timestamp (schedule 20)).
  split; [apply main_Printed; exact Hfuel|].
  intros j Hj.
  assert (Hr : (j mod 4 < 4)%nat) by (apply Nat.mod_upper_bound; lia).
  assert (Hr' : (S j mod 4 < 4)%nat) by (apply Nat.mod_upper_bound; lia).
  destruct (seed_dates_nth_error _ Hr) as (a & Ha & Hva & Hla & Hya).
  destruct (seed_dates_nth_error _ Hr') as (b & Hb & Hvb & Hlb & Hyb).
  unfold MAXYEAR in Hya, Hyb.
  pose proof (Nat.div_mod_eq j 4) as Ej.
  pose proof (Nat.div_mod_eq (S j) 4) as ES.
  assert (Hq : (j / 4 < 20)%nat) by (apply Nat.Div0.div_lt_upper_bound; lia).
  assert (Hq' : (S j / 4 < 20)%nat) by (apply Nat.Div0.div_lt_upper_bound; lia).
  replace (j + 1)%nat with (S j) by lia.
  rewrite !nth_error_map.
  replace (nth_error (schedule 20) j)
    with (nth_error (schedule 20) (4 * (j / 4) + j mod 4))
    by (rewrite <- Ej; reflexivity).
  replace (nth_error (schedule 20) (S j))
    with (nth_error (schedule 20) (4 * (S j / 4) + S j mod 4))
    by (rewrite <- ES; reflexivity).
  rewrite !schedule_nth_error, Ha, Hb by assumption. cbn [option_map].
  do 2 eexists. split; [reflexivity|]. split; [reflexivity|].
  apply Hmono.
  - apply add_years_valid; auto; unfold MAXYEAR; lia.
  - apply add_years_valid; auto; unfold MAXYEAR; lia.
  - pose proof (seed_dates_next j a b (Z.of_nat (S (j / 4))) Ha Hb) as Hlt.
    replace (Z.of_nat (S (S j / 4)))
      with (if (S j mod 4 =? 0)%nat
            then Z.of_nat (S (j / 4)) + 1 else Z.of_nat (S (j / 4))).
    + exact Hlt.
    + destruct (Nat.eqb_spec (S j mod 4) 0); lia.
Qed.

Lemma C10_witness :
  exists out,
    main (LocalTime.timestamp (LocalTime.fixed_offset (-18000))) 20
    = Some (Printed out) /\
    forall j, (j <= 78)%nat ->
      exists x y,
        nth_error out j = Some x /\
        nth_error out (j + 1) = Some y /\
        x < y.
Proof.
  apply (C10_strictly_increasing Z Z.lt
           (LocalTime.timestamp (LocalTime.fixed_offset (-18000))) 20).
  - intros a b Ha Hb Hlt. apply timestamp_fixed_offset_lt; assumption.
  - apply Nat.le_refl.
Defined.

(** C4: the first 4 values are the timestamps of the four seed dates each
    moved one year on, 2024-11-25, 2025-02-25, 2025-05-24 and 2025-08-29 in
    that order, and the printed list is the conversion of the dates passed to
    [timestamp()], none of which is a seed date. *)
Theorem C4_first_block_one_year_after_seeds
    (T : Type) (timestamp : datetime -> T) (fuel : nat) :
  (20 <= fuel)%nat ->
  exists cs out,
    converted 20 seed_dates = Ok cs /\
    main timestamp fuel = Some (Printed out) /\
    out = map timestamp cs /\
    firstn 4 cs = map (add_years 1) seed_dates /\
    firstn 4 out =
      [timestamp (mk_datetime 2024 11 25); timestamp (mk_datetime 2025 2 25);
       timestamp (mk_datetime 2025 5 24); timestamp (mk_datetime 2025 8 29)] /\
    forall d, In d seed_dates -> ~ In d cs.
Proof.
  intros Hfuel. exists (schedule 20), (map timestamp (schedule 20)).
  split.
  { rewrite converted_blocks by (apply seed_dates_advances; lia). reflexivity. }
  split; [apply main_Printed; exact Hfuel|].
  split; [reflexivity|].
  split; [apply (schedule_block 20 0); lia|].
  split.
  - rewrite firstn_map.
    change (firstn 4 (schedule 20)) with (firstn 4 (skipn (4 * 0) (schedule 20))).
    rewrite (schedule_block 20 0) by lia. reflexivity.
  - apply seed_dates_not_converted.
Qed.

Lemma C4_witness :
  exists cs out,
    converted 20 seed_dates = Ok cs /\
    main (LocalTime.timestamp (LocalTime.fixed_offset 0)) 20
    = Some (Printed out) /\
    out = map (LocalTime.timestamp (LocalTime.fixed_offset 0)) cs /\
    firstn 4 cs = map (add_years 1) seed_dates /\
    firstn 4 out = [1732492800; 1740441600; 1748044800; 1756425600] /\
    forall d, In d seed_dates -> ~ In d cs.
Proof.
  apply (C4_first_block_one_year_after_seeds
           Z (LocalTime.timestamp (LocalTime.fixed_offset 0)) 20).
  apply Nat.le_refl.
Defined.

(** C5: the last, 80th, value is the timestamp of the fourth seed date,
    2024-08-29, moved 20 years on: 2044-08-29. *)
Theorem C5_last_value_fourth_seed_plus_20_years
    (T : Type) (timestamp : datetime -> T) (fuel : nat) :
  (20 <= fuel)%nat ->
  exists out,
    main timestamp fuel = Some (Printed out) /\
    length out = 80%nat /\
    nth_error seed_dates 3 = Some (mk_datetime 2024 8 29) /\
    add_years 20 (mk_datetime 2024 8 29) = mk_datetime 2044 8 29 /\
    nth_error out 79 = Some (timestamp (mk_datetime 2044 8 29)) /\
    forall x, last out x = timestamp (mk_datetime 2044 8 29).
Proof.
  intros Hfuel. exists (map timestamp (schedule 20)).
  split; [apply main_Printed; exact Hfuel|].
  split; [rewrite length_map, schedule_length; reflexivity|].
  split; [reflexivity|]. split; [reflexivity|].
  split.
  - rewrite nth_error_map.
    change 79%nat with (4 * 19 + 3)%nat.
    rewrite (schedule_nth_error 20 19 3) by lia. reflexivity.
  - intros x. rewrite schedule_S, map_app.
    change (map timestamp (working_set 20))
      with ([timestamp (mk_datetime 2043 11 25); timestamp (mk_datetime 2044 2 25);
             timestamp (mk_datetime 2044 5 24)]
            ++ [timestamp (mk_datetime 2044 8 29)]).
    rewrite !app_assoc. apply last_last.
Qed.

Lemma C5_witness :
  exists out,
    main (LocalTime.timestamp (LocalTime.fixed_offset 0)) 20
    = Some (Printed out) /\
    length out = 80%nat /\
    nth_error seed_dates 3 = Some (mk_datetime 2024 8 29) /\
    add_years 20 (mk_datetime 2024 8 29) = mk_datetime 2044 8 29 /\
    nth_error out 79 = Some 2356041600 /\
    forall x, last out x = 2356041600.
Proof.
  apply (C5_last_value_fourth_seed_plus_20_years
           Z (LocalTime.timestamp (LocalTime.fixed_offset 0)) 20).
  apply Nat.le_refl.
Defined.

(** One execution of the body from the state after [k] iterations: 4 values
    per completed iteration before and after, and nothing but an append. *)
Lemma body_appends
    (T : Type) (timestamp : datetime -> T) (k : nat) (s s' : state T) :
  after timestamp k (initial T) = Ok s ->
  body timestamp s = Ok s' ->
  after timestamp (S k) (initial T) = Ok s' /\
  length (timestamps s) = (4 * k)%nat /\
  length (timestamps s') = (4 * S k)%nat /\
  (exists new, timestamps s' = timestamps s ++ new /\ length new = 4%nat) /\
  forall j x, nth_error (timestamps s) j = Some x ->
              nth_error (timestamps s') j = Some x.
Proof.
  intros Hk Hb.
  assert (HS : after timestamp (S k) (initial T) = Ok s').
  { rewrite after_S_last, Hk. exact Hb. }
  pose proof (after_length T timestamp _ _ _ Hk) as Hlen.
  pose proof (after_length T timestamp _ _ _ HS) as Hlen'.
  cbn [initial dates timestamps seed_dates length] in Hlen, Hlen'.
  apply body_Ok_inv in Hb as [Hadv Happ].
  split; [exact HS|].
  split; [lia|]. split; [lia|]. split.
  - eexists. split; [exact Happ|].
    apply (f_equal (@length T)) in Happ. rewrite length_app in Happ. lia.
  - intros j x Hj. rewrite Happ. rewrite nth_error_app1; [exact Hj|].
    apply nth_error_Some. congruence.
Qed.

(** C7: [len(timestamps) = 4 * iteration_count] holds after every iteration
    of the loop, and each iteration only appends.  For each of the 20
    iterations, numbered [k + 1] with [k < 20]: the body runs from the state
    [s] after [k] iterations to the state [s'] after [k + 1]; the accumulator
    has [4k] entries before and [4(k + 1)] after; the new accumulator is the
    old one followed by 4 new entries, so every entry present before keeps its
    value and position. *)
Theorem C7_length_invariant_append_only
    (T : Type) (timestamp : datetime -> T) (k : nat) :
  (k < 20)%nat ->
  exists s s',
    after timestamp k (initial T) = Ok s /\
    body timestamp s = Ok s' /\
    after timestamp (S k) (initial T) = Ok s' /\
    length (timestamps s) = (4 * k)%nat /\
    length (timestamps s') = (4 * S k)%nat /\
    (exists new, timestamps s' = timestamps s ++ new /\ length new = 4%nat) /\
    forall j x, nth_error (timestamps s) j = Some x ->
                nth_error (timestamps s') j = Some x.
Proof.
  intros Hk.
  pose proof (after_initial T timestamp k ltac:(lia)) as Hs.
  pose proof (after_initial T timestamp (S k) ltac:(lia)) as HS.
  rewrite after_S_last, Hs in HS. cbn [bind] in HS.
  do 2 eexists. split; [exact Hs|]. split; [exact HS|].
  exact (body_appends T timestamp k _ _ Hs HS).
Qed.

Lemma C7_witness :
  exists s s',
    after (LocalTime.timestamp (LocalTime.fixed_offset 0)) 2 (initial Z) = Ok s /\
    body (LocalTime.timestamp (LocalTime.fixed_offset 0)) s = Ok s' /\
    length (timestamps s) = 8%nat /\
    length (timestamps s') = 12%nat.
Proof.
  assert (Hk : (2 < 20)%nat) by (repeat constructor).
  destruct (C7_length_invariant_append_only
              Z (LocalTime.timestamp (LocalTime.fixed_offset 0)) 2 Hk)
    as (s & s' & Hs & Hb & _ & H1 & H2 & _).
  exists s, s'. exact (conj Hs (conj Hb (conj H1 H2))).
Defined.

(** ** Dependence on the conversion *)

(** The script uses the conversion only on objects, so two conversions that
    agree on objects give the same run, whatever the seeds. *)
Lemma while_loop_ext (T : Type) (timestamp1 timestamp2 : datetime -> T) :
  (forall d, valid d = true -> timestamp1 d = timestamp2 d) ->
  forall fuel s, while_loop timestamp1 fuel s = while_loop timestamp2 fuel s.
Proof.
  intros Hext.
  assert (Hbody : forall s, body timestamp1 s = body timestamp2 s).
  { intros s. unfold body.
    destruct (advance (dates s)) as [ds|e] eqn:Hadv; [|reflexivity].
    cbn [bind]. do 3 f_equal. apply map_ext_in. intros d Hd. apply Hext.
    apply advance_valid in Hadv. rewrite Forall_forall in Hadv. auto. }
  induction fuel as [|fuel IH]; intros s; cbn [while_loop]; [reflexivity|].
  rewrite Hbody. destruct (guard s); [|reflexivity].
  destruct (body timestamp2 s); [|reflexivity].
  rewrite IH. reflexivity.
Qed.

Lemma script_ext (T : Type) (timestamp1 timestamp2 : datetime -> T) :
  (forall d, valid d = true -> timestamp1 d = timestamp2 d) ->
  forall seeds fuel, script timestamp1 seeds fuel = script timestamp2 seeds fuel.
Proof.
  intros Hext seeds fuel. unfold script.
  rewrite (while_loop_ext T timestamp1 timestamp2 Hext). reflexivity.
Qed.

(** C8: the program is deterministic: two runs under the same
    date-to-timestamp conversion print the same 80 values; the conversion is
    the only thing the output depends on. *)
Theorem C8_deterministic
    (T : Type) (timestamp1 timestamp2 : datetime -> T) (fuel1 fuel2 : nat) :
  (forall d, valid d = true -> timestamp1 d = timestamp2 d) ->
  (20 <= fuel1)%nat -> (20 <= fuel2)%nat ->
  exists out,
    main timestamp1 fuel1 = Some (Printed out) /\
    main timestamp2 fuel2 = Some (Printed out) /\
    length out = 80%nat.
Proof.
  intros Hext H1 H2. exists (map timestamp1 (schedule 20)).
  split; [apply main_Printed; exact H1|].
  split; [|rewrite length_map, schedule_length; reflexivity].
  unfold main. rewrite <- (script_ext T timestamp1 timestamp2 Hext).
  apply main_Printed. exact H2.
Qed.

Lemma C8_witness :
  exists out,
    main (LocalTime.timestamp (LocalTime.fixed_offset 7200)) 20
    = Some (Printed out) /\
    main (fun d => LocalTime.seconds_since_epoch d - 7200) 30
    = Some (Printed out) /\
    length out = 80%nat.
Proof.
  apply (C8_deterministic Z
           (LocalTime.timestamp (LocalTime.fixed_offset 7200))
           (fun d => LocalTime.seconds_since_epoch d - 7200) 20 30).
  - intros d _. apply timestamp_fixed_offset.
  - apply Nat.le_refl.
  - repeat constructor.
Defined.

(** C9: the output depends on the local time zone: under two zones of distinct
    fixed UTC offsets the two runs convert the same 80 calendar dates and
    print a different number at every position. *)
Theorem C9_depends_on_time_zone (off1 off2 : Z) (fuel : nat) :
  off1 <> off2 ->
  (20 <= fuel)%nat ->
  exists out1 out2,
    main (LocalTime.timestamp (LocalTime.fixed_offset off1)) fuel
    = Some (Printed out1) /\
    main (LocalTime.timestamp (LocalTime.fixed_offset off2)) fuel
    = Some (Printed out2) /\
    out1 <> out2 /\
    forall j, (j < 80)%nat ->
      exists d x y,
        nth_error (schedule 20) j = Some d /\
        nth_error out1 j = Some x /\
        nth_error out2 j = Some y /\
        x = LocalTime.timestamp (LocalTime.fixed_offset off1) d /\
        y = LocalTime.timestamp (LocalTime.fixed_offset off2) d /\
        x <> y.
Proof.
  intros Hne Hfuel. do 2 eexists.
  split; [apply main_Printed; exact Hfuel|].
  split; [apply main_Printed; exact Hfuel|].
  assert (Hall : forall j, (j < 80)%nat ->
            exists d x y,
              nth_error (schedule 20) j = Some d /\
              nth_error (map (LocalTime.timestamp (LocalTime.fixed_offset off1))
                             (schedule 20)) j = Some x /\
              nth_error (map (LocalTime.timestamp (LocalTime.fixed_offset off2))
                             (schedule 20)) j = Some y /\
              x = LocalTime.timestamp (LocalTime.fixed_offset off1) d /\
              y = LocalTime.timestamp (LocalTime.fixed_offset off2) d /\
              x <> y).
  { intros j Hj.
    destruct (nth_error (schedule 20) j) as [d|] eqn:Hd.
    - exists d. rewrite !nth_error_map, Hd. cbn [option_map].
      do 2 eexists. repeat (split; [reflexivity|]).
      rewrite !timestamp_fixed_offset. lia.
    - apply nth_error_None in Hd. rewrite schedule_length in Hd. lia. }
  split; [|exact Hall].
  intros Heq. destruct (Hall 0%nat ltac:(lia)) as (d & x & y & _ & Hx & Hy & _ & _ & Hxy).
  rewrite Heq in Hx. congruence.
Qed.

Lemma C9_witness :
  exists out1 out2,
    main (LocalTime.timestamp (LocalTime.fixed_offset 0)) 20
    = Some (Printed out1) /\
    main (LocalTime.timestamp (LocalTime.fixed_offset 3600)) 20
    = Some (Printed out2) /\
    out1 <> out2.
Proof.
  assert (Hne : 0 <> 3600) by discriminate.
  destruct (C9_depends_on_time_zone 0 3600 20 Hne (Nat.le_refl 20))
    as (out1 & out2 & H1 & H2 & Hdiff & _).
  exists out1, out2. exact (conj H1 (conj H2 Hdiff)).
Defined.

(** ** Failing year increments *)

(** A year increment that raises in an iteration the loop reaches ends the
    script with that comprehension's exception. *)
Lemma script_failed_increment
    (T : Type) (timestamp : datetime -> T) (seeds : list datetime)
    (n fuel : nat) (sn : state T) (d : datetime) (e : exn) :
  after timestamp n {| dates := seeds; timestamps := [] |} = Ok sn ->
  (forall k sk, (k <= n)%nat ->
     after timestamp k {| dates := seeds; timestamps := [] |} = Ok sk ->
     guard sk = true) ->
  In d (dates sn) ->
  replace d (year d + 1) = Raise e ->
  (n < fuel)%nat ->
  exists e', script timestamp seeds fuel = Some (Traceback e').
Proof.
  intros Hn Hg Hd He Hfuel.
  destruct (proj2 (mapM_Raise_iff (fun d => replace d (year d + 1)) (dates sn)))
    as [e' He']; [eauto|].
  exists e'. eapply script_Traceback. eapply while_loop_raise; eauto.
  unfold body. fold (advance (dates sn)) in He'. rewrite He'. reflexivity.
Qed.

Lemma working_set_advances (k : nat) (d : datetime) :
  (k < 20)%nat -> In d (working_set k) ->
  valid d = true /\ leap_day d = false /\
  replace d (year d + 1) = Ok (add_years 1 d).
Proof.
  intros Hk Hd. unfold working_set in Hd. apply in_map_iff in Hd as (s & <- & Hs).
  pose proof (seed_dates_advances 7975 ltac:(lia)) as Hall.
  rewrite Forall_forall in Hall. destruct (Hall s Hs) as (Hv & Hl & Hy).
  unfold MAXYEAR in Hy.
  assert (Hv' : valid (add_years (Z.of_nat k) s) = true)
    by (apply add_years_valid; auto; unfold MAXYEAR; lia).
  split; [exact Hv'|]. split; [exact Hl|].
  apply replace_next_year_Ok; auto. unfold MAXYEAR. simpl. lia.
Qed.

(** C6, the claim as stated fails: [datetime(9999, 1, 1)] is not a leap day,
    and its year increment raises, because year 10000 is above [MAXYEAR]. *)
Lemma C6_counterexample :
  ~ (forall d, valid d = true ->
       ((exists e, replace d (year d + 1) = Raise e) <->
        (month d = 2 /\ day d = 29 /\ _is_leap (year d + 1) = false))).
Proof.
  intros H.
  destruct (proj1 (H (mk_datetime 9999 1 1) eq_refl)) as (Hm & _).
  - exists (ValueError_year 10000). reflexivity.
  - discriminate Hm.
Qed.

(** C6, amended: for an object [d], [d.replace(year=d.year+1)] raises exactly
    when [d] is February 29 and the target year is not a leap year, or the
    target year is above [MAXYEAR] = 9999.  With the four seed dates neither
    case is reached in the 20 iterations and the script prints its list.  From
    any seeds, a year increment that raises in an iteration the loop reaches
    ends the script with an exception and nothing is printed. *)
Theorem C6_year_increment_errors :
  (forall d, valid d = true ->
     ((exists e, replace d (year d + 1) = Raise e) <->
      ((month d = 2 /\ day d = 29 /\ _is_leap (year d + 1) = false)
       \/ MAXYEAR < year d + 1))) /\
  (forall (T : Type) (timestamp : datetime -> T) (fuel k : nat) (d : datetime),
     (20 <= fuel)%nat -> (k < 20)%nat -> In d (working_set k) ->
     after timestamp k (initial T)
     = Ok {| dates := working_set k; timestamps := map timestamp (schedule k) |} /\
     leap_day d = false /\
     year d + 1 <= MAXYEAR /\
     replace d (year d + 1) = Ok (add_years 1 d) /\
     exists out, main timestamp fuel = Some (Printed out)) /\
  (forall (T : Type) (timestamp : datetime -> T) (seeds : list datetime)
          (n fuel : nat) (sn : state T) (d : datetime) (e : exn),
     after timestamp n {| dates := seeds; timestamps := [] |} = Ok sn ->
     (forall k sk, (k <= n)%nat ->
        after timestamp k {| dates := seeds; timestamps := [] |} = Ok sk ->
        guard sk = true) ->
     In d (dates sn) ->
     replace d (year d + 1) = Raise e ->
     (n < fuel)%nat ->
     (exists e', script timestamp seeds fuel = Some (Traceback e')) /\
     forall out, script timestamp seeds fuel <> Some (Printed out)).
Proof.
  split; [exact replace_next_year_Raise_iff|]. split.
  - intros T timestamp fuel k d Hfuel Hk Hd.
    destruct (working_set_advances k d Hk Hd) as (Hv & Hl & Hr).
    split; [apply after_initial; lia|]. split; [exact Hl|]. split.
    + destruct (Z.leb_spec (year d + 1) MAXYEAR) as [Hy|Hy]; [exact Hy|].
      exfalso.
      destruct (proj2 (replace_next_year_Raise_iff d Hv)) as [e He]; [right; exact Hy|].
      congruence.
    + split; [exact Hr|]. eexists. apply main_Printed. exact Hfuel.
  - intros T timestamp seeds n fuel sn d e Hn Hg Hd He Hfuel.
    destruct (script_failed_increment T timestamp seeds n fuel sn d e
                Hn Hg Hd He Hfuel) as [e' He'].
    split; [eauto|]. intros out Hout. congruence.
Qed.

(** The script started from the single seed 2024-02-29 raises in its first
    iteration, and [datetime(9999, 1, 1)] cannot be moved one year on. *)
Lemma C6_witness :
  (exists e, replace (mk_datetime 9999 1 1) 10000 = Raise e) /\
  (exists e, replace (mk_datetime 2024 2 29) 2025 = Raise e) /\
  replace (mk_datetime 2043 8 29) 2044 = Ok (mk_datetime 2044 8 29) /\
  (exists e', script (LocalTime.timestamp (LocalTime.fixed_offset 0))
                     [mk_datetime 2024 2 29] 1 = Some (Traceback e')).
Proof.
  destruct C6_year_increment_errors as (Ha & Hb & Hc).
  split.
  { apply (proj2 (Ha (mk_datetime 9999 1 1) eq_refl)). right. reflexivity. }
  split.
  { apply (proj2 (Ha (mk_datetime 2024 2 29) eq_refl)). left. repeat split. }
  split.
  { assert (Hfuel : (20 <= 20)%nat) by apply Nat.le_refl.
    assert (Hk : (19 < 20)%nat) by apply Nat.le_refl.
    assert (Hd : In (mk_datetime 2043 8 29) (working_set 19))
      by (right; right; right; left; reflexivity).
    exact (proj1 (proj2 (proj2 (proj2
             (Hb Z (LocalTime.timestamp (LocalTime.fixed_offset 0))
                 20%nat 19%nat (mk_datetime 2043 8 29) Hfuel Hk Hd))))). }
  assert (Hn : after (LocalTime.timestamp (LocalTime.fixed_offset 0)) 0
                 {| dates := [mk_datetime 2024 2 29]; timestamps := [] |}
               = Ok {| dates := [mk_datetime 2024 2 29]; timestamps := [] |})
    by reflexivity.
  refine (proj1 (Hc Z (LocalTime.timestamp (LocalTime.fixed_offset 0))
                   [mk_datetime 2024 2 29] 0%nat 1%nat _
                   (mk_datetime 2024 2 29) (ValueError_day 29) Hn _ _ _ _)).
  - intros k sk Hk Hsk. assert (k = 0)%nat as -> by lia.
    injection Hsk as <-. reflexivity.
  - left. reflexivity.
  - reflexivity.
  - apply Nat.le_refl.
Defined.

(** * Further properties of the script, for arbitrary seed dates *)

(** ** The comprehension *)

Lemma advance_Ok_inv (ds ds' : list datetime) :
  advance ds = Ok ds' -> ds' = map (add_years 1) ds.
Proof.
  revert ds'. unfold advance.
  induction ds as [|d ds IH]; simpl; intros ds' H.
  - injection H as <-. reflexivity.
  - apply bind_Ok_inv in H as (d' & Hd' & H).
    apply bind_Ok_inv in H as (rest & Hrest & H).
    injection H as <-. apply replace_Ok_inv in Hd' as [-> _].
    rewrite (IH _ Hrest). reflexivity.
Qed.

Lemma iterM_advance_Ok_inv (n : nat) :
  forall ds ds', iterM advance n ds = Ok ds' ->
  ds' = map (add_years (Z.of_nat n)) ds.
Proof.
  induction n as [|n IH]; intros ds ds' H.
  - injection H as <-. rewrite <- (map_id ds) at 1.
    apply map_ext. intros [y m d]. unfold add_years. simpl. f_equal. lia.
  - cbn [iterM] in H. apply bind_Ok_inv in H as (ds1 & H1 & H).
    apply advance_Ok_inv in H1 as ->. apply IH in H as ->.
    rewrite map_map. apply map_ext. intros d.
    rewrite add_years_add. f_equal. lia.
Qed.

Lemma mapM_Raise_inv {A B : Type} (f : A -> result B) (e : exn) :
  forall l, mapM f l = Raise e -> exists a, In a l /\ f a = Raise e.
Proof.
  induction l as [|a l IH]; simpl; intros H; [discriminate H|].
  destruct (f a) as [b|e'] eqn:Hfa; simpl in H.
  - destruct (mapM f l) as [bs|e''] eqn:Hl; simpl in H; [discriminate H|].
    injection H as ->. destruct (IH eq_refl) as (x & Hin & Hx). eauto.
  - injection H as ->. eauto.
Qed.

(** What [d.replace(year=d.year+1)] raises on an object: year 10000 is out of
    range, or day 29 does not exist in the target February. *)
Lemma replace_next_year_Raise_inv (d : datetime) (e : exn) :
  valid d = true ->
  replace d (year d + 1) = Raise e ->
  (e = ValueError_year 10000 /\ year d = 9999)
  \/ (e = ValueError_day 29 /\ month d = 2 /\ day d = 29).
Proof.
  intros Hv Hr.
  destruct (proj1 (replace_next_year_Raise_iff d Hv)) as [(Hm & Hd & Hl) | Hy];
    [eauto | |].
  - unfold valid, MINYEAR, MAXYEAR in Hv.
    repeat (apply andb_true_iff in Hv; destruct Hv as [Hv ?]). bool_to_Z.
    unfold replace, new_datetime, _check_date_fields, MINYEAR, MAXYEAR in Hr.
    destruct ((1 <=? year d + 1) && (year d + 1 <=? 9999)) eqn:Hy; simpl in Hr.
    + rewrite Hm, Hd in Hr. rewrite _days_in_feb, Hl in Hr. simpl in Hr.
      injection Hr as <-. right. auto.
    + injection Hr as <-. left.
      apply andb_false_iff in Hy as [Hy | Hy]; bool_to_Z; [lia|].
      assert (year d = 9999) as -> by lia. auto.
  - unfold valid, MINYEAR, MAXYEAR in Hv, Hy.
    repeat (apply andb_true_iff in Hv; destruct Hv as [Hv ?]). bool_to_Z.
    assert (Hy' : year d = 9999) by lia.
    unfold replace, new_datetime, _check_date_fields, MINYEAR, MAXYEAR in Hr.
    rewrite Hy' in Hr. simpl in Hr. injection Hr as <-. left. auto.
Qed.

(** X1: when the comprehension succeeds, the new working set has the same
    length and order as the old one, and each date keeps its month and day and
    has its year increased by exactly one; every new date is an object. *)
Theorem X1_advance_keeps_order_month_day (ds ds' : list datetime) :
  advance ds = Ok ds' ->
  length ds' = length ds /\
  Forall (fun d => valid d = true) ds' /\
  forall i d, nth_error ds i = Some d ->
    exists d', nth_error ds' i = Some d' /\
               year d' = year d + 1 /\ month d' = month d /\ day d' = day d.
Proof.
  intros H. split; [apply advance_length; exact H|].
  split; [eapply advance_valid; exact H|].
  intros i d Hi. apply advance_Ok_inv in H as ->.
  exists (add_years 1 d). rewrite nth_error_map, Hi. simpl. auto.
Qed.

Lemma X1_witness :
  exists ds',
    advance [mk_datetime 2024 2 28; mk_datetime 2023 12 31] = Ok ds' /\
    length ds' = 2%nat /\
    nth_error ds' 1 = Some (mk_datetime 2024 12 31).
Proof.
  assert (H : advance [mk_datetime 2024 2 28; mk_datetime 2023 12 31]
              = Ok [mk_datetime 2025 2 28; mk_datetime 2024 12 31]) by reflexivity.
  destruct (X1_advance_keeps_order_month_day _ _ H) as (Hlen & _ & _).
  eexists. split; [exact H|]. split; [exact Hlen | reflexivity].
Defined.

(** X2: the comprehension stops at the first date whose year increment
    raises, with that date's exception, whatever follows it in the list. *)
Theorem X2_advance_raises_first_failure
    (before after_ : list datetime) (d : datetime) (e : exn) :
  Forall (fun x => exists x', replace x (year x + 1) = Ok x') before ->
  replace d (year d + 1) = Raise e ->
  advance (before ++ d :: after_) = Raise e.
Proof.
  intros Hb Hd. unfold advance.
  induction Hb as [|x l [x' Hx] _ IH]; simpl.
  - rewrite Hd. reflexivity.
  - rewrite Hx. cbn [bind]. rewrite IH. reflexivity.
Qed.

Lemma X2_witness :
  advance ([mk_datetime 2023 11 25]
           ++ mk_datetime 2024 2 29 :: [mk_datetime 9999 1 1])
  = Raise (ValueError_day 29).
Proof.
  apply X2_advance_raises_first_failure.
  - constructor; [|constructor]. exists (mk_datetime 2024 11 25). reflexivity.
  - reflexivity.
Defined.

(** ** The loop from an arbitrary state *)

Lemma after_dates_valid (T : Type) (timestamp : datetime -> T) (n : nat) :
  forall s s' : state T,
  after timestamp n s = Ok s' ->
  Forall (fun d => valid d = true) (dates s) ->
  Forall (fun d => valid d = true) (dates s').
Proof.
  induction n as [|n IH]; intros s s' H Hv.
  - injection H as <-. exact Hv.
  - rewrite after_S in H. apply bind_Ok_inv in H as (s1 & H1 & H).
    apply (IH s1 s' H). apply body_Ok_inv in H1 as [Hadv _].
    eapply advance_valid. exact Hadv.
Qed.

(** A run that leaves the loop through the guard went through exactly the
    states [after 0], ..., [after n]. *)
Lemma while_loop_Ok_inv (T : Type) (timestamp : datetime -> T) (fuel : nat) :
  forall (s s' : state T) (n : nat),
  while_loop timestamp fuel s = Some {| iterations := n; outcome := Ok s' |} ->
  after timestamp n s = Ok s' /\
  guard s' = false /\
  (n <= fuel)%nat /\
  forall k sk, (k < n)%nat -> after timestamp k s = Ok sk -> guard sk = true.
Proof.
  induction fuel as [|fuel IH]; intros s s' n H; cbn [while_loop] in H.
  - destruct (guard s) eqn:Hg; [discriminate H|].
    injection H as <- <-. repeat split; auto. intros k sk Hk. lia.
  - destruct (guard s) eqn:Hg.
    + destruct (body timestamp s) as [s1|e] eqn:Hb; [|discriminate H].
      destruct (while_loop timestamp fuel s1) as [[m o]|] eqn:Hw; [|discriminate H].
      cbn in H. injection H as <- ->.
      destruct (IH _ _ _ Hw) as (Ha & Hg' & Hle & Hlt).
      split; [rewrite after_S, Hb; exact Ha|].
      split; [exact Hg'|]. split; [lia|].
      intros k sk Hk Hsk. destruct k as [|k].
      * injection Hsk as <-. exact Hg.
      * rewrite after_S, Hb in Hsk. apply (Hlt k); [lia | exact Hsk].
    + injection H as <- <-. repeat split; auto; [lia|]. intros k sk Hk. lia.
Qed.

(** A run that leaves the loop by an exception raised it in the body, in a
    state reached with the guard true. *)
Lemma while_loop_Raise_inv (T : Type) (timestamp : datetime -> T) (fuel : nat) :
  forall (s : state T) (n : nat) (e : exn),
  while_loop timestamp fuel s = Some {| iterations := n; outcome := Raise e |} ->
  exists sn,
    after timestamp n s = Ok sn /\ guard sn = true /\
    body timestamp sn = Raise e /\ (n < fuel)%nat.
Proof.
  induction fuel as [|fuel IH]; intros s n e H; cbn [while_loop] in H.
  - destruct (guard s); discriminate H.
  - destruct (guard s) eqn:Hg; [|discriminate H].
    destruct (body timestamp s) as [s1|e1] eqn:Hb.
    + destruct (while_loop timestamp fuel s1) as [[m o]|] eqn:Hw; [|discriminate H].
      cbn in H. injection H as <- ->.
      destruct (IH _ _ _ Hw) as (sn & Ha & Hgn & Hbn & Hlt).
      exists sn. split; [rewrite after_S, Hb; exact Ha|]. repeat split; auto. lia.
    + injection H as <- <-. exists s. repeat split; auto. lia.
Qed.

(** A finished run is not changed by a larger bound. *)
Lemma while_loop_fuel_mono (T : Type) (timestamp : datetime -> T) (fuel : nat) :
  forall (s : state T) (r : run T) (fuel' : nat),
  while_loop timestamp fuel s = Some r -> (fuel <= fuel')%nat ->
  while_loop timestamp fuel' s = Some r.
Proof.
  induction fuel as [|fuel IH]; intros s r fuel' H Hle; cbn [while_loop] in H.
  - destruct (guard s) eqn:Hg; [discriminate H|].
    destruct fuel'; cbn [while_loop]; rewrite Hg; exact H.
  - destruct fuel' as [|fuel']; [lia|]. cbn [while_loop].
    destruct (guard s); [|exact H].
    destruct (body timestamp s) as [s1|e]; [|exact H].
    destruct (while_loop timestamp fuel s1) as [r1|] eqn:Hw; [|discriminate H].
    rewrite (IH s1 r1 fuel' Hw) by lia. exact H.
Qed.

(** With a nonempty working set every iteration raises or appends at least
    one value, so the loop is over once the bound covers the missing values. *)
Lemma while_loop_terminates (T : Type) (timestamp : datetime -> T) (fuel : nat) :
  forall s : state T,
  dates s <> [] ->
  (80 <= length (timestamps s) + fuel)%nat ->
  exists r, while_loop timestamp fuel s = Some r.
Proof.
  induction fuel as [|fuel IH]; intros s Hne Hlen; cbn [while_loop].
  - unfold guard. destruct (Nat.ltb_spec (length (timestamps s)) 80); [lia|].
    eauto.
  - destruct (guard s); [|eauto].
    destruct (body timestamp s) as [s1|e] eqn:Hb; [|eauto].
    apply body_Ok_inv in Hb as [Hadv Happ].
    pose proof (advance_length _ _ Hadv) as Hl.
    destruct (IH s1) as [r Hr].
    + intros E. rewrite E in Hl. destruct (dates s); [congruence | discriminate Hl].
    + rewrite Happ, length_app, length_map, Hl.
      destruct (dates s); [congruence | simpl; lia].
    + rewrite Hr. cbn [option_map]. eauto.
Qed.

(** X3: the loop invariant for any starting state: [n] completed iterations
    keep the size of the working set, move each of its dates [n] years on,
    and extend the accumulator by [n] times the size of the working set; the
    accumulator they started from is still its prefix. *)
Theorem X3_after_n_iterations
    (T : Type) (timestamp : datetime -> T) (n : nat) (s s' : state T) :
  after timestamp n s = Ok s' ->
  dates s' = map (add_years (Z.of_nat n)) (dates s) /\
  length (dates s') = length (dates s) /\
  length (timestamps s')
  = (length (timestamps s) + n * length (dates s))%nat /\
  firstn (length (timestamps s)) (timestamps s') = timestamps s.
Proof.
  intros H. pose proof (after_length T timestamp n s s' H) as Hlen.
  rewrite after_spec in H.
  apply bind_Ok_inv in H as (ds & Hds & H).
  apply bind_Ok_inv in H as (cs & Hcs & H).
  injection H as <-. cbn [dates timestamps] in *.
  apply iterM_advance_Ok_inv in Hds as ->.
  split; [reflexivity|]. split; [apply length_map|]. split; [exact Hlen|].
  rewrite firstn_app, Nat.sub_diag, firstn_all, firstn_O, app_nil_r.
  reflexivity.
Qed.

Lemma X3_witness :
  exists s',
    after (fun d => year d) 3
      {| dates := [mk_datetime 2000 1 31; mk_datetime 2001 6 30];
         timestamps := [7; 8; 9] |} = Ok s' /\
    dates s' = [mk_datetime 2003 1 31; mk_datetime 2004 6 30] /\
    length (timestamps s') = 9%nat /\
    firstn 3 (timestamps s') = [7; 8; 9].
Proof.
  eexists. split; [reflexivity|].
  destruct (X3_after_n_iterations Z (fun d => year d) 3
              {| dates := [mk_datetime 2000 1 31; mk_datetime 2001 6 30];
                 timestamps := [7; 8; 9] |} _ eq_refl)
    as (Hd & _ & Hl & Hp).
  exact (conj Hd (conj Hl Hp)).
Defined.

(** ** The script from arbitrary seeds *)

Lemma script_Printed_inv
    (T : Type) (timestamp : datetime -> T) (seeds : list datetime)
    (fuel : nat) (out : list T) :
  script timestamp seeds fuel = Some (Printed out) ->
  exists n s',
    while_loop timestamp fuel {| dates := seeds; timestamps := [] |}
    = Some {| iterations := n; outcome := Ok s' |} /\ timestamps s' = out.
Proof.
  unfold script, finish.
  destruct (while_loop timestamp fuel _) as [[n [s'|e]]|]; cbn;
    intros H; try discriminate H.
  injection H as <-. eauto.
Qed.

Lemma script_Traceback_inv
    (T : Type) (timestamp : datetime -> T) (seeds : list datetime)
    (fuel : nat) (e : exn) :
  script timestamp seeds fuel = Some (Traceback e) ->
  exists n sn d,
    after timestamp n {| dates := seeds; timestamps := [] |} = Ok sn /\
    guard sn = true /\ In d (dates sn) /\ replace d (year d + 1) = Raise e.
Proof.
  unfold script, finish.
  destruct (while_loop timestamp fuel _) as [[n [s'|e']]|] eqn:Hw; cbn;
    intros H; try discriminate H.
  injection H as ->.
  apply while_loop_Raise_inv in Hw as (sn & Ha & Hg & Hb & _).
  unfold body in Hb. destruct (advance (dates sn)) as [ds|e'] eqn:Hadv;
    [discriminate Hb|].
  injection Hb as ->. apply mapM_Raise_inv in Hadv as (d & Hd & Hr).
  exists n, sn, d. auto.
Qed.

(** X4: an exception at top level always comes from a year increment: it is
    the exception of [replace] on a date of the working set of some iteration
    the loop reached, when the accumulator, which is then lost, held one value
    per seed and completed iteration and fewer than 80 in all. *)
Theorem X4_traceback_is_a_failed_increment
    (T : Type) (timestamp : datetime -> T) (seeds : list datetime)
    (fuel : nat) (e : exn) :
  script timestamp seeds fuel = Some (Traceback e) ->
  exists n sn d,
    after timestamp n {| dates := seeds; timestamps := [] |} = Ok sn /\
    In d (dates sn) /\
    replace d (year d + 1) = Raise e /\
    length (timestamps sn) = (n * length seeds)%nat /\
    (n * length seeds < 80)%nat.
Proof.
  intros H. apply script_Traceback_inv in H as (n & sn & d & Ha & Hg & Hd & Hr).
  exists n, sn, d. split; [exact Ha|]. split; [exact Hd|]. split; [exact Hr|].
  apply after_length in Ha. cbn [dates timestamps length] in Ha.
  unfold guard in Hg. apply Nat.ltb_lt in Hg. lia.
Qed.

Lemma X4_witness :
  exists n sn d,
    after (fun d => year d) n
      {| dates := [mk_datetime 9997 3 1]; timestamps := [] |} = Ok sn /\
    In d (dates sn) /\
    replace d (year d + 1) = Raise (ValueError_year 10000) /\
    length (timestamps sn) = (n * 1)%nat /\
    (n * 1 < 80)%nat.
Proof.
  apply (X4_traceback_is_a_failed_increment Z (fun d => year d)
           [mk_datetime 9997 3 1] 5 (ValueError_year 10000)).
  reflexivity.
Defined.

(** X5: started from objects, the script can only fail in two ways: year
    10000 is out of range, or day 29 is out of range for a February. *)
Theorem X5_only_two_exceptions
    (T : Type) (timestamp : datetime -> T) (seeds : list datetime)
    (fuel : nat) (e : exn) :
  Forall (fun d => valid d = true) seeds ->
  script timestamp seeds fuel = Some (Traceback e) ->
  e = ValueError_year 10000 \/ e = ValueError_day 29.
Proof.
  intros Hv H. apply script_Traceback_inv in H as (n & sn & d & Ha & _ & Hd & Hr).
  apply after_dates_valid in Ha; [|exact Hv].
  rewrite Forall_forall in Ha.
  destruct (replace_next_year_Raise_inv d e (Ha d Hd) Hr) as [[-> _] | [-> _]]; auto.
Qed.

Lemma X5_witness :
  script (fun d => year d)
    [mk_datetime 2023 5 1; mk_datetime 2024 2 29] 3
  = Some (Traceback (ValueError_day 29)) /\
  (ValueError_day 29 = ValueError_year 10000
   \/ ValueError_day 29 = ValueError_day 29).
Proof.
  assert (H : script (fun d => year d)
                [mk_datetime 2023 5 1; mk_datetime 2024 2 29] 3
              = Some (Traceback (ValueError_day 29))) by reflexivity.
  split; [exact H|].
  apply (X5_only_two_exceptions Z (fun d => year d)
           [mk_datetime 2023 5 1; mk_datetime 2024 2 29] 3 (ValueError_day 29)).
  - repeat constructor.
  - exact H.
Defined.

(** X6: with an empty list of seeds the loop never ends: every iteration
    appends nothing, so no bound on the iterations lets the script finish. *)
Theorem X6_empty_seeds_never_finish
    (T : Type) (timestamp : datetime -> T) (fuel : nat) :
  script timestamp [] fuel = None.
Proof.
  unfold script.
  induction fuel as [|fuel IH]; [reflexivity|].
  cbn [while_loop guard timestamps length Nat.ltb Nat.leb body dates advance
       mapM bind map app].
  destruct (while_loop timestamp fuel {| dates := []; timestamps := [] |});
    [discriminate IH | reflexivity].
Qed.

(** X7: with at least one seed the script always ends, by printing or by an
    exception, within 80 iterations, and a larger bound on the iterations
    gives the same result. *)
Theorem X7_nonempty_seeds_terminate
    (T : Type) (timestamp : datetime -> T) (seeds : list datetime) (fuel : nat) :
  seeds <> [] ->
  (80 <= fuel)%nat ->
  exists p, script timestamp seeds 80 = Some p /\
            script timestamp seeds fuel = Some p.
Proof.
  intros Hne Hfuel. unfold script.
  destruct (while_loop_terminates T timestamp 80
              {| dates := seeds; timestamps := [] |} Hne ltac:(simpl; lia))
    as [r Hr].
  exists (finish r). rewrite Hr.
  rewrite (while_loop_fuel_mono T timestamp 80 _ r fuel Hr Hfuel).
  split; reflexivity.
Qed.

Lemma X7_witness :
  exists p,
    script (fun d => year d) [mk_datetime 2024 2 29] 80 = Some p /\
    script (fun d => year d) [mk_datetime 2024 2 29] 100 = Some p.
Proof.
  apply X7_nonempty_seeds_terminate.
  - discriminate.
  - repeat constructor.
Defined.

(** X8: whatever the seeds, a printed list holds a whole number [n >= 1] of
    blocks of one value per seed, and [n] is the least number of blocks that
    reaches 80 values: the list has at least 80 values and fewer than 80 plus
    the number of seeds. *)
Theorem X8_printed_length
    (T : Type) (timestamp : datetime -> T) (seeds : list datetime)
    (fuel : nat) (out : list T) :
  script timestamp seeds fuel = Some (Printed out) ->
  exists n,
    (1 <= n)%nat /\
    length out = (n * length seeds)%nat /\
    (80 <= n * length seeds)%nat /\
    ((n - 1) * length seeds < 80)%nat.
Proof.
  intros H. apply script_Printed_inv in H as (n & s' & Hw & <-).
  apply while_loop_Ok_inv in Hw as (Ha & Hg & _ & Hlt).
  pose proof (after_length T timestamp _ _ _ Ha) as Hlen.
  cbn [dates timestamps length] in Hlen.
  unfold guard in Hg. apply Nat.ltb_ge in Hg.
  exists n. destruct n as [|n]; [simpl in Hlen; lia|].
  split; [lia|]. split; [lia|]. split; [lia|].
  replace (S n - 1)%nat with n by lia.
  destruct (after timestamp n {| dates := seeds; timestamps := [] |})
    as [sk|e] eqn:Hk.
  - pose proof (Hlt n sk ltac:(lia) Hk) as Hgk.
    apply after_length in Hk. cbn [dates timestamps length] in Hk.
    unfold guard in Hgk. apply Nat.ltb_lt in Hgk. lia.
  - rewrite after_S_last, Hk in Ha. discriminate Ha.
Qed.

Lemma X8_witness :
  exists n,
    (1 <= n)%nat /\
    length (map (fun k => 2000 + Z.of_nat k)
              (flat_map (fun k => [k; k; k]) (seq 1 27)))
    = (n * 3)%nat /\
    (80 <= n * 3)%nat /\
    ((n - 1) * 3 < 80)%nat.
Proof.
  apply (X8_printed_length Z (fun d => year d)
           [mk_datetime 2000 1 1; mk_datetime 2000 6 15; mk_datetime 2000 12 31]
           27).
  vm_compute. reflexivity.
Defined.

(** A valid leap day cannot be moved one year on. *)
Lemma leap_day_next_year_Raise (d : datetime) :
  valid d = true -> leap_day d = true ->
  exists e, replace d (year d + 1) = Raise e.
Proof.
  intros Hv Hl. apply (replace_next_year_Raise_iff d Hv).
  unfold leap_day in Hl. apply andb_true_iff in Hl as [Hm Hd]. bool_to_Z.
  unfold valid in Hv.
  repeat (apply andb_true_iff in Hv; destruct Hv as [Hv ?]). bool_to_Z.
  rewrite Hm, _days_in_feb in H.
  destruct (Z.leb_spec (year d + 1) MAXYEAR) as [Hy|Hy]; [left | right; exact Hy].
  split; [exact Hm|]. split; [exact Hd|].
  apply _is_leap_succ. destruct (_is_leap (year d)); [reflexivity | lia].
Qed.

(** X9: a February 29 among the seeds makes the very first iteration fail:
    the script ends with an exception, before any value is converted, and
    prints nothing. *)
Theorem X9_leap_day_seed_fails_at_once
    (T : Type) (timestamp : datetime -> T) (seeds : list datetime)
    (d : datetime) (fuel : nat) :
  In d seeds -> valid d = true -> leap_day d = true ->
  (1 <= fuel)%nat ->
  exists e,
    while_loop timestamp fuel {| dates := seeds; timestamps := [] |}
    = Some {| iterations := 0; outcome := Raise e |} /\
    script timestamp seeds fuel = Some (Traceback e).
Proof.
  intros Hin Hv Hl Hfuel.
  destruct (leap_day_next_year_Raise d Hv Hl) as [e He].
  destruct (proj2 (mapM_Raise_iff (fun d => replace d (year d + 1)) seeds))
    as [e' He']; [eauto|].
  exists e'.
  assert (Hw : while_loop timestamp fuel {| dates := seeds; timestamps := [] |}
               = Some {| iterations := 0; outcome := Raise e' |}).
  { destruct fuel as [|fuel]; [lia|]. cbn [while_loop guard timestamps length
      Nat.ltb Nat.leb]. unfold body. cbn [dates]. unfold advance.
    rewrite He'. reflexivity. }
  split; [exact Hw|]. eapply script_Traceback. exact Hw.
Qed.

Lemma X9_witness :
  exists e,
    while_loop (fun d => year d) 1
      {| dates := [mk_datetime 2023 11 25; mk_datetime 2028 2 29];
         timestamps := [] |}
    = Some {| iterations := 0; outcome := Raise e |} /\
    script (fun d => year d)
      [mk_datetime 2023 11 25; mk_datetime 2028 2 29] 1
    = Some (Traceback e).
Proof.
  apply (X9_leap_day_seed_fails_at_once Z (fun d => year d)
           [mk_datetime 2023 11 25; mk_datetime 2028 2 29]
           (mk_datetime 2028 2 29) 1).
  - right. left. reflexivity.
  - reflexivity.
  - reflexivity.
  - apply Nat.le_refl.
Defined.

(** The dates converted in [n] iterations are objects, each a seed moved
    between 1 and [n] years on. *)
Lemma converted_provenance (n : nat) :
  forall ds cs, converted n ds = Ok cs ->
  Forall (fun c => valid c = true /\
                   exists s k, In s ds /\ 1 <= k <= Z.of_nat n /\
                               c = add_years k s) cs.
Proof.
  induction n as [|n IH]; intros ds cs H.
  - injection H as <-. constructor.
  - pose proof (converted_valid _ _ _ H) as Hv.
    cbn [converted] in H.
    apply bind_Ok_inv in H as (ds' & Hds' & H).
    apply bind_Ok_inv in H as (rest & Hrest & H).
    injection H as <-. apply advance_Ok_inv in Hds' as ->.
    rewrite Forall_forall in Hv. apply Forall_forall. intros c Hc.
    split; [apply Hv; exact Hc|].
    apply in_app_or in Hc as [Hc | Hc].
    + apply in_map_iff in Hc as (s & <- & Hs). exists s, 1. split; [exact Hs|].
      split; [lia | reflexivity].
    + pose proof (IH _ _ Hrest) as Hp. rewrite Forall_forall in Hp.
      destruct (Hp c Hc) as (_ & s' & k & Hs' & Hk & ->).
      apply in_map_iff in Hs' as (s & <- & Hs).
      exists s, (1 + k). split; [exact Hs|]. split; [lia|].
      apply add_years_add.
Qed.

(** X10: whatever the seeds, a printed list is the conversion, in the order
    of the calls, of the dates handed to [timestamp()]; each of them is an
    object built by [replace], a seed moved at least one year on with its
    month and day unchanged. *)
Theorem X10_printed_values_provenance
    (T : Type) (timestamp : datetime -> T) (seeds : list datetime)
    (fuel : nat) (out : list T) :
  script timestamp seeds fuel = Some (Printed out) ->
  exists n cs,
    converted n seeds = Ok cs /\
    out = map timestamp cs /\
    Forall (fun c => valid c = true /\
                     exists s k, In s seeds /\ 1 <= k <= Z.of_nat n /\
                                 year c = year s + k /\
                                 month c = month s /\ day c = day s) cs.
Proof.
  intros H. apply script_Printed_inv in H as (n & s' & Hw & <-).
  apply while_loop_Ok_inv in Hw as (Ha & _).
  rewrite after_spec in Ha. cbn [dates timestamps app] in Ha.
  apply bind_Ok_inv in Ha as (ds & _ & Ha).
  apply bind_Ok_inv in Ha as (cs & Hcs & Ha).
  injection Ha as <-. exists n, cs. split; [exact Hcs|].
  split; [reflexivity|].
  eapply Forall_impl; [|apply converted_provenance; exact Hcs].
  intros c (Hv & s & k & Hs & Hk & ->). split; [exact Hv|].
  exists s, k. simpl. auto.
Qed.

Lemma X10_witness :
  exists n cs,
    converted n [mk_datetime 1999 12 31] = Ok cs /\
    map (fun k => 1999 + Z.of_nat k) (seq 1 80) = map (fun d => year d) cs /\
    Forall (fun c => valid c = true /\
                     exists s k, In s [mk_datetime 1999 12 31] /\
                                 1 <= k <= Z.of_nat n /\
                                 year c = year s + k /\
                                 month c = month s /\ day c = day s) cs.
Proof.
  apply (X10_printed_values_provenance Z (fun d => year d)
           [mk_datetime 1999 12 31] 80).
  vm_compute. reflexivity.
Defined.

(** ** Conversions in local time *)







(** ** Order of the output for arbitrary seeds *)

Lemma converted_Ok_inv (n : nat) :
  forall ds cs, converted n ds = Ok cs ->
  cs = flat_map (fun k => map (add_years (Z.of_nat k)) ds) (seq 1 n).
Proof.
  induction n as [|n IH]; intros ds cs H.
  - injection H as <-. reflexivity.
  - cbn [converted] in H.
    apply bind_Ok_inv in H as (ds' & Hds' & H).
    apply bind_Ok_inv in H as (rest & Hrest & H).
    injection H as <-. apply advance_Ok_inv in Hds' as ->.
    apply IH in Hrest as ->. cbn [seq flat_map].
    change (Z.of_nat 1) with 1. apply (f_equal (app _)).
    rewrite <- (seq_shift n 1).
    rewrite (flat_map_concat_map _ (map S _)), map_map, <- flat_map_concat_map.
    apply flat_map_ext. intros k. rewrite map_map. apply map_ext. intros d.
    rewrite add_years_add. f_equal. lia.
Qed.

(** Position [k * m + i] of [n] blocks over a working set of [m] dates. *)
Lemma blocks_nth_error (ds : list datetime) (i : nat) (n : nat) :
  (i < length ds)%nat ->
  forall a k, (k < n)%nat ->
  nth_error (flat_map (fun j => map (add_years (Z.of_nat j)) ds) (seq a n))
            (k * length ds + i)
  = option_map (add_years (Z.of_nat (a + k))) (nth_error ds i).
Proof.
  intros Hi. induction n as [|n IH]; intros a k Hk; [lia|].
  cbn [seq flat_map]. destruct k as [|k].
  - rewrite nth_error_app1 by (rewrite length_map; simpl; lia).
    simpl. rewrite Nat.add_0_r. apply nth_error_map.
  - rewrite nth_error_app2 by (rewrite length_map; simpl; lia).
    rewrite length_map.
    replace (S k * length ds + i - length ds)%nat
      with (k * length ds + i)%nat by (simpl; lia).
    rewrite IH by lia. do 3 f_equal. lia.
Qed.

(** X14: whatever the seeds, under a strictly monotone conversion a printed
    list is block-monotonic: with [m] seeds, the value at position
    [k * m + i] is less than the value one block later, at [(k + 1) * m + i]. *)
Theorem X14_block_monotonic_for_any_seeds
    (T : Type) (lt : T -> T -> Prop) (timestamp : datetime -> T)
    (seeds : list datetime) (fuel : nat) (out : list T)
    (i k : nat) (x y : T) :
  strictly_monotone lt timestamp ->
  script timestamp seeds fuel = Some (Printed out) ->
  (i < length seeds)%nat ->
  nth_error out (k * length seeds + i) = Some x ->
  nth_error out ((k + 1) * length seeds + i) = Some y ->
  lt x y.
Proof.
  intros Hmono H Hi Hx Hy.
  apply script_Printed_inv in H as (n & s' & Hw & <-).
  apply while_loop_Ok_inv in Hw as (Ha & _).
  rewrite after_spec in Ha. cbn [dates timestamps app] in Ha.
  apply bind_Ok_inv in Ha as (ds & _ & Ha).
  apply bind_Ok_inv in Ha as (cs & Hcs & Ha).
  injection Ha as <-. cbn [timestamps] in Hx, Hy.
  pose proof (converted_valid _ _ _ Hcs) as Hv. rewrite Forall_forall in Hv.
  pose proof (converted_length _ _ _ Hcs) as Hlen.
  apply converted_Ok_inv in Hcs. rewrite nth_error_map in Hx, Hy.
  assert (Hk : (k + 1 < n)%nat).
  { destruct (nth_error cs ((k + 1) * length seeds + i)) eqn:E; [|discriminate Hy].
    assert (Hlt : ((k + 1) * length seeds + i < length cs)%nat)
      by (apply nth_error_Some; congruence).
    rewrite Hlen in Hlt. nia. }
  destruct (nth_error cs (k * length seeds + i)) as [a|] eqn:Ea; [|discriminate Hx].
  destruct (nth_error cs ((k + 1) * length seeds + i)) as [b|] eqn:Eb;
    [|discriminate Hy].
  injection Hx as <-. injection Hy as <-.
  apply Hmono.
  - apply Hv. eapply nth_error_In. exact Ea.
  - apply Hv. eapply nth_error_In. exact Eb.
  - rewrite Hcs in Ea, Eb.
    rewrite blocks_nth_error in Ea, Eb by lia.
    destruct (nth_error seeds i) as [s|]; [|discriminate Ea].
    injection Ea as <-. injection Eb as <-.
    apply add_years_lt. lia.
Qed.

Lemma X14_witness :
  exists out x y,
    script (LocalTime.timestamp (LocalTime.fixed_offset 0))
      [mk_datetime 2000 1 1; mk_datetime 2000 6 15; mk_datetime 2000 12 31] 27
    = Some (Printed out) /\
    nth_error out (5 * 3 + 2) = Some x /\
    nth_error out ((5 + 1) * 3 + 2) = Some y /\
    x < y.
Proof.
  pose (seeds := [mk_datetime 2000 1 1; mk_datetime 2000 6 15;
                  mk_datetime 2000 12 31]).
  pose (zone := LocalTime.timestamp (LocalTime.fixed_offset 0)).
  pose (out := map zone
                 (flat_map (fun k => map (add_years (Z.of_nat k)) seeds)
                           (seq 1 27))).
  assert (H : script zone seeds 27 = Some (Printed out)) by reflexivity.
  exists out, (zone (mk_datetime 2006 12 31)), (zone (mk_datetime 2007 12 31)).
  assert (Hx : nth_error out (5 * 3 + 2) = Some (zone (mk_datetime 2006 12 31)))
    by reflexivity.
  assert (Hy : nth_error out ((5 + 1) * 3 + 2)
               = Some (zone (mk_datetime 2007 12 31))) by reflexivity.
  split; [exact H|]. split; [exact Hx|]. split; [exact Hy|].
  apply (X14_block_monotonic_for_any_seeds Z Z.lt zone seeds 27 out 2 5).
  - intros a b Ha Hb Hlt. apply timestamp_fixed_offset_lt; assumption.
  - exact H.
  - repeat constructor.
  - exact Hx.
  - exact Hy.
Defined.
